(** * lino-go: the transport, broadcast and query packages

  A shallow embedding of
  - [transport/core.go]  (point query, commit broadcast, node handle),
  - the broadcast package (message builders, [broadcastTransaction],
    [retrieveCodeFromBlockChainCode]),
  - [query/post.go]      (point getters and range-scan aggregates),
  followed by the properties the specification states about them.

  Conventions.  A Go [uint32] is an [N], an [int64] a [Z]; a [[]byte] is
  a [list byte] (the nil slice is [[]]); a Go [string] is a [string]; a
  Go [map[string]T] is a [gmap string T].  A Go function returning
  [(T, error)] returns a pair whose second component is an
  [option error] ([None] is the nil error); a pointer result is an
  [option] ([None] is nil).  Calls that reach the remote node are
  recorded in a log that is threaded through the code. *)

From Stdlib Require Import NArith ZArith List Ascii String Strings.Byte Lia.
From stdpp Require Import base option list strings pretty gmap sorting.

Open Scope N_scope.

(** ** Go values shared by the three packages *)

Module Go.

(** A value of Go's [error] interface produced by a library
    ([errors.New], [errors.Errorf], [ctx.Err()], the RPC client): only
    its text, [err.Error()], is observed by this code base. *)
Inductive error : Type := ErrorString (text : string).

Definition Error (e : error) : string :=
  match e with ErrorString s => s end.

(** [%d] applied to an unsigned integer. *)
Definition fmt_d (n : N) : string := pretty n.

(** Indexing a string constant ([s[i]], in range at every use here). *)
Definition at_index (s : string) (i : N) : ascii :=
  default zero (String.get (N.to_nat i) s).

(** [encoding/hex]: [hextable[v>>4]], [hextable[v&0x0f]] per byte. *)
Definition hextable : string := "0123456789abcdef".

Fixpoint EncodeToString (src : list byte) : string :=
  match src with
  | [] => EmptyString
  | v :: rest =>
      String (at_index hextable (N.shiftr (Byte.to_N v) 4))
        (String (at_index hextable (N.land (Byte.to_N v) 15)) (EncodeToString rest))
  end.

(** [strings.ToUpper] on ASCII text: a byte in ['a','z'] loses
    ['a' - 'A']; every other byte below 0x80 is kept.  (The only caller
    passes the output of [EncodeToString], which is ASCII.) *)
Definition upper_byte (c : ascii) : ascii :=
  let n := N_of_ascii c in
  if (97 <=? n) && (n <=? 122) then ascii_of_N (n - 32) else c.

Fixpoint ToUpper (s : string) : string :=
  match s with
  | EmptyString => EmptyString
  | String c rest => String (upper_byte c) (ToUpper rest)
  end.

Definition is_upper_hex (c : ascii) : bool :=
  let n := N_of_ascii c in
  ((48 <=? n) && (n <=? 57)) || ((65 <=? n) && (n <=? 70)).

Definition is_digit (c : ascii) : bool :=
  let n := N_of_ascii c in (48 <=? n) && (n <=? 57).

Fixpoint all_chars (p : ascii -> bool) (s : string) : bool :=
  match s with
  | EmptyString => true
  | String c rest => p c && all_chars p rest
  end.

(** A function that either returns a value and a nil error, or a nil
    pointer (or map) and an error. *)
Inductive result (A : Type) : Type :=
| Ok (a : A)
| Err (err : error).
Arguments Ok {A} a.
Arguments Err {A} err.

(** Code that reaches the outside (the node, a goroutine): the log of
    the events of kind [E] issued so far, oldest first, is passed along. *)
Definition IO (E A : Type) : Type := list E -> A * list E.

Definition ret {E A} (a : A) : IO E A := fun w => (a, w).
Definition bind {E A B} (m : IO E A) (k : A -> IO E B) : IO E B :=
  fun w => let (a, w') := m w in k a w'.
(** Issue [e]; the answer may depend on everything issued before. *)
Definition call {E A} (e : E) (reply : list E -> A) : IO E A :=
  fun w => (reply w, w ++ [e]).

End Go.

(** ** Tendermint result structures ([ctypes], [abci]) and keys ([crypto])

    Only the fields this code base reads. *)

Module ctypes.

Record ResponseQuery := { rq_Code : N; rq_Value : list byte; rq_Log : string }.
Record ResultABCIQuery := { Response : ResponseQuery }.

Record ResponseTx := { tx_Code : N; tx_Log : string }.
Record ResultBroadcastTxCommit :=
  { CheckTx : ResponseTx; DeliverTx : ResponseTx; commit_Hash : list byte }.

Record ResultBroadcastTx := { Code : N; Log : string; Hash : list byte }.

End ctypes.

Module crypto.

Record PubKey := { pub_bytes : list byte }.
Record PrivKey := { priv_bytes : list byte }.
Record Signature := { sig_bytes : list byte }.

End crypto.

(** ** The model package: constants and the messages the builders fill in *)

Module model.
Import crypto.

Definition InvalidSeqErrCode : N := 154.

Record IDToURLMapping := { Identifier : string; URL : string }.

Record RegisterMsg := {
  reg_Referrer : string; reg_RegisterFee : string; reg_NewUser : string;
  reg_NewResetPubKey : PubKey; reg_NewTransactionPubKey : PubKey;
  reg_NewAppPubKey : PubKey }.

Record TransferMsg := {
  tr_Sender : string; tr_Receiver : string; tr_Amount : string; tr_Memo : string }.

Record RecoverMsg := {
  rec_Username : string; rec_NewResetPubKey : PubKey;
  rec_NewTransactionPubKey : PubKey; rec_NewAppPubKey : PubKey }.

Record CreatePostMsg := {
  cp_Author : string; cp_PostID : string; cp_Title : string; cp_Content : string;
  cp_ParentAuthor : string; cp_ParentPostID : string;
  cp_SourceAuthor : string; cp_SourcePostID : string;
  cp_Links : list IDToURLMapping; cp_RedistributionSplitRate : string }.

Record DonateMsg := {
  don_Username : string; don_Amount : string; don_Author : string;
  don_PostID : string; don_FromApp : string; don_Memo : string }.

Record ValidatorDepositMsg := {
  vd_Username : string; vd_Deposit : string; vd_ValPubKey : PubKey; vd_Link : string }.

Record RevokePermissionMsg := { rp_Username : string; rp_PubKey : PubKey }.

(** [model.Msg]: the message variants built by the operations embedded
    below. *)
Inductive Msg : Type :=
| MsgRegister (m : RegisterMsg)
| MsgTransfer (m : TransferMsg)
| MsgRecover (m : RecoverMsg)
| MsgCreatePost (m : CreatePostMsg)
| MsgDonate (m : DonateMsg)
| MsgValidatorDeposit (m : ValidatorDepositMsg)
| MsgRevokePermission (m : RevokePermissionMsg).

Record BroadcastResponse := { CommitHash : string }.

End model.

(** ** The errors package

    Modelled from the spec: the source of the package [lino-go/errors]
    is missing; its constructors are used by name in the
    broadcast package and the spec's taxonomy lists what each error
    carries (a kind, a message, the remote code and log, a cause). *)

Module errors.
Import Go.

Inductive CodeType : Type :=
| CodeTimeout
| CodeFailedToBroadcast
| CodeInvalidSequenceNumber
| CodeCheckTxFail
| CodeDeliverTxFail
| CodeFailedToGetPubKeyFromHex.

Record Error := {
  code : CodeType;
  msg : string;
  cause : option Go.error;
  blockChainCode : N;
  blockChainLog : string
}.

Definition new (c : CodeType) (m : string) : Error :=
  {| code := c; msg := m; cause := None; blockChainCode := 0; blockChainLog := "" |}.

Definition Timeoutf := new CodeTimeout.
Definition FailedToBroadcast := new CodeFailedToBroadcast.
Definition InvalidSequenceNumber := new CodeInvalidSequenceNumber.
Definition CheckTxFail := new CodeCheckTxFail.
Definition DeliverTxFail := new CodeDeliverTxFail.
Definition FailedToGetPubKeyFromHex := new CodeFailedToGetPubKeyFromHex.
Definition FailedToGetPubKeyFromHexf := new CodeFailedToGetPubKeyFromHex.

Definition AddCause (e : Error) (c : Go.error) : Error :=
  {| code := code e; msg := msg e; cause := Some c;
     blockChainCode := blockChainCode e; blockChainLog := blockChainLog e |}.
Definition AddBlockChainCode (e : Error) (bc : N) : Error :=
  {| code := code e; msg := msg e; cause := cause e;
     blockChainCode := bc; blockChainLog := blockChainLog e |}.
Definition AddBlockChainLog (e : Error) (log : string) : Error :=
  {| code := code e; msg := msg e; cause := cause e;
     blockChainCode := blockChainCode e; blockChainLog := log |}.

End errors.

(** ** transport/core.go *)

Module transport.
Import Go ctypes crypto model.

(** A request put on the wire by the RPC client. *)
Inductive Rpc : Type :=
| RpcABCIQuery (path : string) (key : list byte)
| RpcBroadcastTxCommit (tx : list byte).

(** Everything sent to the remote node so far, oldest first. *)
Definition Wire := list Rpc.

(** What an RPC call hands back: a transport failure (with whatever
    result pointer came along), or the node's reply. *)
Inductive Reply (A : Type) : Type :=
| Failed (partial : option A) (err : error)
| Replied (a : A).
Arguments Failed {A} partial err.
Arguments Replied {A} a.

(** [rpcclient.Client]: the node's answer may depend on everything it
    was sent before. *)
Record Client := {
  ABCIQuery_reply : Wire -> string -> list byte -> Reply ResultABCIQuery;
  BroadcastTxCommit_reply : Wire -> list byte -> Reply ResultBroadcastTxCommit
}.

Definition ABCIQuery (node : Client) (path : string) (key : list byte)
  : IO Rpc (Reply ResultABCIQuery) :=
  call (RpcABCIQuery path key) (fun w => ABCIQuery_reply node w path key).

Definition BroadcastTxCommit (node : Client) (tx : list byte)
  : IO Rpc (Reply ResultBroadcastTxCommit) :=
  call (RpcBroadcastTxCommit tx) (fun w => BroadcastTxCommit_reply node w tx).

Record Transport := {
  chainId : string;
  nodeUrl : string;
  client : option Client   (* [None] is the nil interface value *)
}.

Definition GetNode (t : Transport) : option Client * option error :=
  match client t with
  | None => (None, Some (ErrorString "Must define node URI"))
  | Some c => (Some c, None)
  end.

Definition query_failed (code : N) (log : string) : error :=
  ErrorString ("Query failed: (" +:+ fmt_d code +:+ ") " +:+ log).

(** [Query]: the named result [res] stays nil on every error path. *)
Definition Query (t : Transport) (key : list byte) (storeName : string)
  : IO Rpc (list byte * option error) :=
  let path := "/" +:+ storeName +:+ "/key" in
  match GetNode t with
  | (Some node, None) =>
      bind (ABCIQuery node path key) (fun result =>
        match result with
        | Failed _ err => ret ([], Some err)
        | Replied result =>
            let resp := Response result in
            if negb (rq_Code resp =? 0)
            then ret ([], Some (query_failed (rq_Code resp) (rq_Log resp)))
            else ret (rq_Value resp, None)
        end)
  | (_, Some err) => ret ([], Some err)
  | (None, None) => ret ([], None)   (* not a result of GetNode *)
  end.

Definition checktx_failed (r : ResponseTx) : error :=
  ErrorString ("CheckTx failed: (" +:+ fmt_d (tx_Code r) +:+ ") " +:+ tx_Log r).
Definition delivertx_failed (r : ResponseTx) : error :=
  ErrorString ("DeliverTx failed: (" +:+ fmt_d (tx_Code r) +:+ ") " +:+ tx_Log r).

Definition BroadcastTx (t : Transport) (tx : list byte)
  : IO Rpc (option ResultBroadcastTxCommit * option error) :=
  match GetNode t with
  | (Some node, None) =>
      bind (BroadcastTxCommit node tx) (fun reply =>
        match reply with
        | Failed res err => ret (res, Some err)
        | Replied res =>
            if negb (tx_Code (CheckTx res) =? 0)
            then ret (Some res, Some (checktx_failed (CheckTx res)))
            else if negb (tx_Code (DeliverTx res) =? 0)
            then ret (Some res, Some (delivertx_failed (DeliverTx res)))
            else ret (Some res, None)
        end)
  | (_, Some err) => ret (None, Some err)
  | (None, None) => ret (None, None)   (* not a result of GetNode *)
  end.

(** The encoders of the transport package and the key operations of
    [crypto], which [SignBuildBroadcast] calls and which are not in
    [core.go]. *)
Class Codec := {
  EncodeSignMsg : Msg -> string -> Z -> list byte * option error;
  EncodeTx : Msg -> PubKey -> Signature -> Z -> list byte * option error;
  Sign : PrivKey -> list byte -> Signature;
  PubKeyOf : PrivKey -> PubKey
}.

(** A call either returns or panics. *)
Inductive Outcome (A : Type) : Type :=
| Returns (a : A)
| Panics (err : error).
Arguments Returns {A} a.
Arguments Panics {A} err.

Definition SignBuildBroadcast `{Codec} (t : Transport) (msg : Msg)
    (privKey : PrivKey) (seq : Z)
  : IO Rpc (Outcome (option ResultBroadcastTxCommit * option error)) :=
  match EncodeSignMsg msg (chainId t) seq with
  | (_, Some err) => ret (Panics err)
  | (signMsgBytes, None) =>
      let sig := Sign privKey signMsgBytes in
      match EncodeTx msg (PubKeyOf privKey) sig seq with
      | (_, Some err) => ret (Panics err)
      | (txBytes, None) => bind (BroadcastTx t txBytes) (fun r => ret (Returns r))
      end
  end.

End transport.

(** ** The broadcast package *)

Module broadcast.
Import Go ctypes crypto model errors.

(** The dynamic value behind the [interface{}] that
    [transport.SignBuildBroadcast] returns: a result of one of the two
    RPC calls, or anything else (nil included).  A typed nil pointer is
    excluded by the RPC client, which returns a result whenever it
    returns no error. *)
Inductive Dyn : Type :=
| DynResultBroadcastTx (r : ResultBroadcastTx)
| DynResultBroadcastTxCommit (r : ResultBroadcastTxCommit)
| DynOther.

(** A goroutine started by the package; each one runs
    [transport.SignBuildBroadcast] on the recorded arguments. *)
Inductive Started : Type :=
| GoSignBuildBroadcast (msg : Msg) (privKeyHex : string) (seq : Z)
    (memo : string) (checkTxOnly : bool).

(** The goroutines started so far, oldest first. *)
Definition History := list Started.

(** The transport this package is linked against (its
    [SignBuildBroadcast] takes the key in hex, a memo and the mode, and
    is not the one of [core.go]) and [fmt]'s [%v] for a message.  What
    the pipeline yields may depend on what was submitted before. *)
Class Transport := {
  GetPubKeyFromHex : string -> PubKey * option error;
  SignBuildBroadcast : History -> Msg -> string -> Z -> string -> bool -> Dyn * option error;
  fmt_v : Msg -> string
}.

Definition Result : Type := option BroadcastResponse * option Error.

Definition retrieveCodeFromBlockChainCode (bcCode : N) : N :=
  N.land bcCode 255.

Definition is_nil {A} (e : option A) : bool :=
  match e with None => true | Some _ => false end.

(** The case of the [select] statement that fires: the goroutine's send
    on [finishChan], or [ctx.Done()] with [ctx.Err()] as it is then. *)
Inductive Select : Type :=
| RecvFinish
| RecvDone (ctxErr : error).

Definition timeout `{Transport} (msg : Msg) (ctxErr : error) : Result :=
  (None, Some (AddCause (Timeoutf ("msg timeout: " +:+ fmt_v msg)) ctxErr)).

(** [broadcastTransaction] from the statement after the [select] on:
    [res] and [err] are the variables the goroutine assigned. *)
Definition after_select (checkTxOnly : bool) (res : Dyn) (err : option error)
  : Result :=
  match err with
  | Some e => (None, Some (FailedToBroadcast (Go.Error e)))
  | None =>
      if checkTxOnly then
        match res with
        | DynResultBroadcastTx res =>
            let code := retrieveCodeFromBlockChainCode (Code res) in
            if is_nil err && (code =? InvalidSeqErrCode) then
              (None, Some (AddBlockChainLog (AddBlockChainCode
                 (InvalidSequenceNumber "invalid seq") (Code res)) (Log res)))
            else if negb (Code res =? 0) then
              (None, Some (AddBlockChainLog (AddBlockChainCode
                 (CheckTxFail "CheckTx failed!") (Code res)) (Log res)))
            else if negb (Code res =? 0) then
              (None, Some (AddBlockChainLog (AddBlockChainCode
                 (DeliverTxFail "DeliverTx failed!") (Code res)) (Log res)))
            else
              let commitHash := EncodeToString (Hash res) in
              (Some {| CommitHash := ToUpper commitHash |}, None)
        | _ => (None, Some (FailedToBroadcast "error to parse the broadcast response"))
        end
      else
        match res with
        | DynResultBroadcastTxCommit res =>
            let code := retrieveCodeFromBlockChainCode (tx_Code (CheckTx res)) in
            if is_nil err && (code =? InvalidSeqErrCode) then
              (None, Some (AddBlockChainLog (AddBlockChainCode
                 (InvalidSequenceNumber "invalid seq") (tx_Code (CheckTx res)))
                 (tx_Log (CheckTx res))))
            else if negb (tx_Code (CheckTx res) =? 0) then
              (None, Some (AddBlockChainLog (AddBlockChainCode
                 (CheckTxFail "CheckTx failed!") (tx_Code (CheckTx res)))
                 (tx_Log (CheckTx res))))
            else if negb (tx_Code (DeliverTx res) =? 0) then
              (None, Some (AddBlockChainLog (AddBlockChainCode
                 (DeliverTxFail "DeliverTx failed!") (tx_Code (DeliverTx res)))
                 (tx_Log (DeliverTx res))))
            else
              let commitHash := EncodeToString (commit_Hash res) in
              (Some {| CommitHash := ToUpper commitHash |}, None)
        | _ => (None, Some (FailedToBroadcast "error to parse the broadcast response"))
        end
  end.

(** [broadcastTransaction], with the case of the [select] that fires
    given by [sel].  The goroutine is started before the [select] either
    way. *)
Definition broadcastTransaction `{Transport} (sel : Select) (msg : Msg)
    (privKeyHex : string) (seq : Z) (memo : string) (checkTxOnly : bool)
  : IO Started Result :=
  bind (call (GoSignBuildBroadcast msg privKeyHex seq memo checkTxOnly)
          (fun log => SignBuildBroadcast log msg privKeyHex seq memo checkTxOnly))
    (fun r =>
       match sel with
       | RecvFinish => ret (after_select checkTxOnly (fst r) (snd r))
       | RecvDone ctxErr => ret (timeout msg ctxErr)
       end).

(** [return nil, errors.FailedToGetPubKeyFromHex(text).AddCause(err)] *)
Definition fail_key (text : string) (err : error) : IO Started Result :=
  ret (None, Some (AddCause (FailedToGetPubKeyFromHex text) err)).

Section Operations.
Context `{Transport}.

Definition Register (ctx : Select) (referrer registerFee username resetPubKeyHex
    transactionPubKeyHex appPubKeyHex referrerPrivKeyHex : string) (seq : Z)
  : IO Started Result :=
  match GetPubKeyFromHex resetPubKeyHex with
  | (_, Some err) => fail_key "Register: failed to get Reset pub key" err
  | (resetPubKey, None) =>
  match GetPubKeyFromHex transactionPubKeyHex with
  | (_, Some err) => fail_key "Register: failed to get Tx pub key" err
  | (txPubKey, None) =>
  match GetPubKeyFromHex appPubKeyHex with
  | (_, Some err) => fail_key "Register: failed to get App pub key" err
  | (appPubKey, None) =>
      let msg := MsgRegister {|
        reg_Referrer := referrer;
        reg_RegisterFee := registerFee;
        reg_NewUser := username;
        reg_NewResetPubKey := resetPubKey;
        reg_NewTransactionPubKey := txPubKey;
        reg_NewAppPubKey := appPubKey |} in
      broadcastTransaction ctx msg referrerPrivKeyHex seq "" false
  end end end.

Definition Transfer (ctx : Select) (sender receiver amount memo privKeyHex : string)
    (seq : Z) : IO Started Result :=
  let msg := MsgTransfer {|
    tr_Sender := sender; tr_Receiver := receiver;
    tr_Amount := amount; tr_Memo := memo |} in
  broadcastTransaction ctx msg privKeyHex seq "" false.

Definition Recover (ctx : Select) (username newResetPubKeyHex
    newTransactionPubKeyHex newAppPubKeyHex privKeyHex : string) (seq : Z)
  : IO Started Result :=
  match GetPubKeyFromHex newResetPubKeyHex with
  | (_, Some err) => fail_key "Recover: failed to get Reset pub key" err
  | (resetPubKey, None) =>
  match GetPubKeyFromHex newTransactionPubKeyHex with
  | (_, Some err) => fail_key "Recover: failed to get Tx pub key" err
  | (txPubKey, None) =>
  match GetPubKeyFromHex newAppPubKeyHex with
  | (_, Some err) => fail_key "Recover: failed to get App pub key" err
  | (appPubKey, None) =>
      let msg := MsgRecover {|
        rec_Username := username;
        rec_NewResetPubKey := resetPubKey;
        rec_NewTransactionPubKey := txPubKey;
        rec_NewAppPubKey := appPubKey |} in
      broadcastTransaction ctx msg privKeyHex seq "" false
  end end end.

(** [for k, v := range links]: the runtime yields the entries of the map
    once each, in an order of its choosing. *)
Definition range_order (links : gmap string string)
    (order : list (string * string)) : Prop :=
  order ≡ₚ map_to_list links.

(** The [mLinks] slice built from the entries in the order they were
    yielded (nil for a nil or empty map). *)
Definition build_links (order : list (string * string)) : list IDToURLMapping :=
  List.map (fun kv => {| Identifier := fst kv; URL := snd kv |}) order.

Definition create_post_msg (author postID title content parentAuthor
    parentPostID sourceAuthor sourcePostID redistributionSplitRate : string)
    (mLinks : list IDToURLMapping) : Msg :=
  MsgCreatePost {|
    cp_Author := author; cp_PostID := postID; cp_Title := title;
    cp_Content := content; cp_ParentAuthor := parentAuthor;
    cp_ParentPostID := parentPostID; cp_SourceAuthor := sourceAuthor;
    cp_SourcePostID := sourcePostID; cp_Links := mLinks;
    cp_RedistributionSplitRate := redistributionSplitRate |}.

(** [CreatePost]; [order] is the order in which [range links] yields the
    entries, so [range_order links order] holds in every run. *)
Definition CreatePost (ctx : Select) (order : list (string * string))
    (author postID title content parentAuthor parentPostID sourceAuthor
     sourcePostID redistributionSplitRate : string)
    (links : gmap string string) (privKeyHex : string) (seq : Z) : IO Started Result :=
  let mLinks := if decide (size links = 0%nat) then [] else build_links order in
  let msg := create_post_msg author postID title content parentAuthor
               parentPostID sourceAuthor sourcePostID redistributionSplitRate
               mLinks in
  broadcastTransaction ctx msg privKeyHex seq "" false.

Definition CreatePostSync (ctx : Select) (order : list (string * string))
    (author postID title content parentAuthor parentPostID sourceAuthor
     sourcePostID redistributionSplitRate : string)
    (links : gmap string string) (privKeyHex : string) (seq : Z) : IO Started Result :=
  let mLinks := if decide (size links = 0%nat) then [] else build_links order in
  let msg := create_post_msg author postID title content parentAuthor
               parentPostID sourceAuthor sourcePostID redistributionSplitRate
               mLinks in
  broadcastTransaction ctx msg privKeyHex seq "" true.

Definition donate_msg (username author amount postID fromApp memo : string) : Msg :=
  MsgDonate {|
    don_Username := username; don_Amount := amount; don_Author := author;
    don_PostID := postID; don_FromApp := fromApp; don_Memo := memo |}.

Definition Donate (ctx : Select) (username author amount postID fromApp memo
    privKeyHex : string) (seq : Z) : IO Started Result :=
  broadcastTransaction ctx (donate_msg username author amount postID fromApp memo)
    privKeyHex seq "" false.

Definition DonateSync (ctx : Select) (username author amount postID fromApp memo
    privKeyHex : string) (seq : Z) : IO Started Result :=
  broadcastTransaction ctx (donate_msg username author amount postID fromApp memo)
    privKeyHex seq "" true.

Definition ValidatorDeposit (ctx : Select) (username deposit validatorPubKey link
    privKeyHex : string) (seq : Z) : IO Started Result :=
  match GetPubKeyFromHex validatorPubKey with
  | (_, Some err) => fail_key "ValidatorDeposit: failed to get Val pub key" err
  | (valPubKey, None) =>
      let msg := MsgValidatorDeposit {|
        vd_Username := username; vd_Deposit := deposit;
        vd_ValPubKey := valPubKey; vd_Link := link |} in
      broadcastTransaction ctx msg privKeyHex seq "" false
  end.

Definition RevokePermission (ctx : Select) (username pubKeyHex privKeyHex : string)
    (seq : Z) : IO Started Result :=
  match GetPubKeyFromHex pubKeyHex with
  | (_, Some err) => fail_key "Register: failed to get pub key" err
  | (pubKey, None) =>
      let msg := MsgRevokePermission {|
        rp_Username := username; rp_PubKey := pubKey |} in
      broadcastTransaction ctx msg privKeyHex seq "" false
  end.

End Operations.

(** *** The goroutine and the [select], step by step

    [broadcastTransaction] starts a goroutine that assigns [res] and
    [err] and then sends on the unbuffered [finishChan]; the caller
    blocks in a [select] over [finishChan] and [ctx.Done()].  A case of
    the [select] can fire only when it is ready: the receive from
    [finishChan] when the goroutine is at its send, the receive from
    [ctx.Done()] once the context is cancelled. *)

Inductive Worker : Type :=
| Running     (* inside transport.SignBuildBroadcast *)
| Sending     (* res and err assigned, blocked on the send *)
| Exited.

Inductive Caller : Type :=
| Selecting               (* blocked in the select *)
| Returned (out : Result).

Record Race := {
  worker : Worker;
  res_var : Dyn;              (* the captured variable res *)
  err_var : option error;     (* the captured variable err *)
  cancelled : option error;   (* ctx.Err() once ctx.Done() is closed *)
  caller : Caller
}.

(** The state right after the [go] statement; [ctx] may be cancelled
    already. *)
Definition started (ctx : option error) : Race :=
  {| worker := Running; res_var := DynOther; err_var := None;
     cancelled := ctx; caller := Selecting |}.

(** What happens without the caller: the pipeline completes with some
    result, or the context is cancelled. *)
Inductive env_step : Race -> Race -> Prop :=
| env_complete s res err :
    worker s = Running ->
    env_step s {| worker := Sending; res_var := res; err_var := err;
                  cancelled := cancelled s; caller := caller s |}
| env_cancel s ctxErr :
    cancelled s = None ->
    env_step s {| worker := worker s; res_var := res_var s; err_var := err_var s;
                  cancelled := Some ctxErr; caller := caller s |}.

(** The caller leaving the [select] through one of its two cases. *)
Inductive caller_step `{Transport} (msg : Msg) (checkTxOnly : bool)
  : Race -> Race -> Prop :=
| recv_finish s :
    caller s = Selecting -> worker s = Sending ->
    caller_step msg checkTxOnly s
      {| worker := Exited; res_var := res_var s; err_var := err_var s;
         cancelled := cancelled s;
         caller := Returned (after_select checkTxOnly (res_var s) (err_var s)) |}
| recv_done s ctxErr :
    caller s = Selecting -> cancelled s = Some ctxErr ->
    caller_step msg checkTxOnly s
      {| worker := worker s; res_var := res_var s; err_var := err_var s;
         cancelled := cancelled s;
         caller := Returned (timeout msg ctxErr) |}.

Definition step `{Transport} (msg : Msg) (checkTxOnly : bool) (s s' : Race) : Prop :=
  env_step s s' \/ caller_step msg checkTxOnly s s'.

End broadcast.

(** ** query/post.go *)

Module query.
Import Go model.

Record KV := { Key : list byte; Value : list byte }.

Record Coin := { Amount : Z }.

(** The fields of the records that [GetUserAllPosts] reads and fills. *)
Record PostInfo := {
  pi_PostID : string; pi_Title : string; pi_Content : string; pi_Author : string;
  pi_ParentAuthor : string; pi_ParentPostID : string;
  pi_SourceAuthor : string; pi_SourcePostID : string;
  pi_Links : list IDToURLMapping }.

Record PostMeta := {
  pm_CreatedAt : Z; pm_LastUpdatedAt : Z; pm_LastActivityAt : Z;
  pm_AllowReplies : bool; pm_IsDeleted : bool; pm_TotalDonateCount : Z;
  pm_TotalReportCoinDay : Coin; pm_TotalUpvoteCoinDay : Coin;
  pm_TotalViewCount : Z; pm_TotalReward : Coin;
  pm_RedistributionSplitRate : string }.

Record Post := {
  PostID : string; Title : string; Content : string; Author : string;
  ParentAuthor : string; ParentPostID : string;
  SourceAuthor : string; SourcePostID : string;
  Links : list IDToURLMapping;
  CreatedAt : Z; LastUpdatedAt : Z; LastActivityAt : Z;
  AllowReplies : bool; IsDeleted : bool; TotalDonateCount : Z;
  TotalReportCoinDay : Coin; TotalUpvoteCoinDay : Coin;
  TotalViewCount : Z; TotalReward : Coin;
  RedistributionSplitRate : string }.

(** A request sent through the transport. *)
Inductive Lookup : Type :=
| CallQuery (key : list byte) (storeName : string)
| CallQuerySubspace (subspace : list byte) (storeName : string).

(** The transport the query package is linked against (it takes a
    context, and has a range scan): what each request yields, given the
    requests made before. *)
Class Transport := {
  Query_reply : list Lookup -> list byte -> string -> list byte * option error;
  QuerySubspace_reply : list Lookup -> list byte -> string -> list KV * option error
}.

(** [transport.Cdc.UnmarshalJSON(bz, ptr)] at the record type [A]: the
    record read into [ptr], and the error. *)
Class Unmarshal (A : Type) := UnmarshalJSON : list byte -> A * option error.

(** The key layout of the package: constants and helpers of its key
    file, taken as given. *)
Class Keys := {
  PostKVStoreKey : string;
  PermLinkSeparator : list byte;
  getPermlink : string -> string -> string;
  getPostInfoKey : string -> list byte;
  getPostMetaKey : string -> list byte;
  getPostCommentKey : string -> string -> list byte;
  getPostViewKey : string -> string -> list byte;
  getUserPostInfoPrefix : string -> list byte;
  getPostCommentPrefix : string -> list byte;
  getPostViewPrefix : string -> list byte;
  getPostDonationsPrefix : string -> list byte;
  getPostReportOrUpvotePrefix : string -> list byte;
  getSubstringAfterSubstore : list byte -> string;
  getSubstringAfterKeySeparator : list byte -> string
}.

Section Queries.
Context `{Transport} `{Keys}.

Definition Query (key : list byte) (storeName : string)
  : IO Lookup (list byte * option error) :=
  call (CallQuery key storeName) (fun w => Query_reply w key storeName).

Definition QuerySubspace (subspace : list byte) (storeName : string)
  : IO Lookup (list KV * option error) :=
  call (CallQuerySubspace subspace storeName)
       (fun w => QuerySubspace_reply w subspace storeName).

Definition GetPostMeta `{Unmarshal PostMeta} (author postID : string)
  : IO Lookup (result PostMeta) :=
  let permlink := getPermlink author postID in
  bind (Query (getPostMetaKey permlink) PostKVStoreKey) (fun r =>
    match snd r with
    | Some err => ret (Err err)
    | None =>
        match UnmarshalJSON (fst r) with
        | (_, Some err) => ret (Err err)
        | (postMeta, None) => ret (Ok postMeta)
        end
    end).

Definition make_post (postInfo : PostInfo) (pm : PostMeta) : Post := {|
  PostID := pi_PostID postInfo;
  Title := pi_Title postInfo;
  Content := pi_Content postInfo;
  Author := pi_Author postInfo;
  ParentAuthor := pi_ParentAuthor postInfo;
  ParentPostID := pi_ParentPostID postInfo;
  SourceAuthor := pi_SourceAuthor postInfo;
  SourcePostID := pi_SourcePostID postInfo;
  Links := pi_Links postInfo;
  CreatedAt := pm_CreatedAt pm;
  LastUpdatedAt := pm_LastUpdatedAt pm;
  LastActivityAt := pm_LastActivityAt pm;
  AllowReplies := pm_AllowReplies pm;
  IsDeleted := pm_IsDeleted pm;
  TotalDonateCount := pm_TotalDonateCount pm;
  TotalReportCoinDay := pm_TotalReportCoinDay pm;
  TotalUpvoteCoinDay := pm_TotalUpvoteCoinDay pm;
  TotalViewCount := pm_TotalViewCount pm;
  TotalReward := pm_TotalReward pm;
  RedistributionSplitRate := pm_RedistributionSplitRate pm |}.

(** The loop of [GetUserAllPosts] over the entries still to visit, with
    the map filled so far. *)
Fixpoint posts_loop `{Unmarshal PostInfo} `{Unmarshal PostMeta}
    (resKVs : list KV) (permlinkToPostMap : gmap string Post)
  : IO Lookup (result (gmap string Post)) :=
  match resKVs with
  | [] => ret (Ok permlinkToPostMap)
  | KV :: rest =>
      match UnmarshalJSON (Value KV) with
      | (_, Some err) => ret (Err err)
      | (postInfo, None) =>
          bind (GetPostMeta (pi_Author postInfo) (pi_PostID postInfo)) (fun r =>
            match r with
            | Err err => ret (Err err)
            | Ok pm =>
                let post := make_post postInfo pm in
                posts_loop rest
                  (<[getSubstringAfterSubstore (Key KV) := post]> permlinkToPostMap)
            end)
      end
  end.

(** One turn of that loop: the post built from an entry, or the error
    that ends the loop there. *)
Definition entry_post `{Unmarshal PostInfo} `{Unmarshal PostMeta} (KV : KV)
  : IO Lookup (result Post) :=
  match UnmarshalJSON (Value KV) with
  | (_, Some err) => ret (Err err)
  | (postInfo, None) =>
      bind (GetPostMeta (pi_Author postInfo) (pi_PostID postInfo)) (fun r =>
        match r with
        | Err err => ret (Err err)
        | Ok pm => ret (Ok (make_post postInfo pm))
        end)
  end.

Definition GetUserAllPosts `{Unmarshal PostInfo} `{Unmarshal PostMeta}
    (username : string) : IO Lookup (result (gmap string Post)) :=
  bind (QuerySubspace (getUserPostInfoPrefix username ++ PermLinkSeparator)
          PostKVStoreKey) (fun r =>
    match snd r with
    | Some err => ret (Err err)
    | None => posts_loop (fst r) ∅
    end).

(** The loop shared by the aggregates that decode one record per entry
    and key it by the segment after the key separator. *)
Fixpoint decode_loop {A} `{Unmarshal A} (resKVs : list KV) (m : gmap string A)
  : result (gmap string A) :=
  match resKVs with
  | [] => Ok m
  | KV :: rest =>
      match UnmarshalJSON (Value KV) with
      | (_, Some err) => Err err
      | (record, None) =>
          decode_loop rest (<[getSubstringAfterKeySeparator (Key KV) := record]> m)
      end
  end.

Definition range_query {A} `{Unmarshal A} (subspace : list byte)
  : IO Lookup (result (gmap string A)) :=
  bind (QuerySubspace subspace PostKVStoreKey) (fun r =>
    match snd r with
    | Some err => ret (Err err)
    | None => ret (decode_loop (fst r) ∅)
    end).

Definition GetPostAllComments {Comment} `{Unmarshal Comment} (author postID : string)
  : IO Lookup (result (gmap string Comment)) :=
  let permlink := getPermlink author postID in
  range_query (getPostCommentPrefix permlink).

Definition GetPostAllViews {View} `{Unmarshal View} (author postID : string)
  : IO Lookup (result (gmap string View)) :=
  let permlink := getPermlink author postID in
  range_query (getPostViewPrefix permlink).

Definition GetPostAllDonations {Donations} `{Unmarshal Donations}
    (author postID : string) : IO Lookup (result (gmap string Donations)) :=
  let permlink := getPermlink author postID in
  range_query (getPostDonationsPrefix permlink).

Definition GetPostAllReportOrUpvotes {ReportOrUpvote} `{Unmarshal ReportOrUpvote}
    (author postID : string) : IO Lookup (result (gmap string ReportOrUpvote)) :=
  let permlink := getPermlink author postID in
  range_query (getPostReportOrUpvotePrefix permlink).

End Queries.

End query.

(** ** A canonical encoding

    Modelled from the spec: [EncodeSignMsg] and [EncodeTx] belong to the
    transport package, in a file other than [core.go] whose source is
    missing.  The spec
    asks for a deterministic, canonical byte sequence of (message,
    chainId, sequenceNumber), the same for the same logical input
    whatever the order in which its fields were filled in, and for the
    envelope (message, publicKey, signature, sequenceNumber) in the same
    scheme.  The model writes every field in declaration order, a string
    as its length, a colon and its bytes, and the links of a post as
    their number followed by the links in canonical order (by identifier,
    then by URL), none left out. *)

Module encoding.
Import Go crypto model.

Definition str (s : string) : string :=
  pretty (N.of_nat (String.length s)) +:+ ":" +:+ s.

Definition key (k : PubKey) : string := str (string_of_list_byte (pub_bytes k)).

Fixpoint mappings (l : list IDToURLMapping) : string :=
  match l with
  | [] => ""
  | x :: rest => str (Identifier x) +:+ str (URL x) +:+ mappings rest
  end.

(** The canonical order of links. *)
Definition link_le (x y : IDToURLMapping) : Prop :=
  if decide (Identifier x = Identifier y)
  then (URL x ≤ URL y)%string
  else (Identifier x ≤ Identifier y)%string.

#[global] Instance link_le_dec : RelDecision link_le.
Proof. intros x y. unfold link_le. case_decide; apply _. Defined.

Definition canonical (l : list IDToURLMapping) : list IDToURLMapping :=
  merge_sort link_le l.

Definition msg_text (m : Msg) : string :=
  match m with
  | MsgRegister m =>
      "register;" +:+ str (reg_Referrer m) +:+ str (reg_RegisterFee m)
      +:+ str (reg_NewUser m) +:+ key (reg_NewResetPubKey m)
      +:+ key (reg_NewTransactionPubKey m) +:+ key (reg_NewAppPubKey m)
  | MsgTransfer m =>
      "transfer;" +:+ str (tr_Sender m) +:+ str (tr_Receiver m)
      +:+ str (tr_Amount m) +:+ str (tr_Memo m)
  | MsgRecover m =>
      "recover;" +:+ str (rec_Username m) +:+ key (rec_NewResetPubKey m)
      +:+ key (rec_NewTransactionPubKey m) +:+ key (rec_NewAppPubKey m)
  | MsgCreatePost m =>
      "post;" +:+ str (cp_Author m) +:+ str (cp_PostID m) +:+ str (cp_Title m)
      +:+ str (cp_Content m) +:+ str (cp_ParentAuthor m)
      +:+ str (cp_ParentPostID m) +:+ str (cp_SourceAuthor m)
      +:+ str (cp_SourcePostID m)
      +:+ pretty (N.of_nat (length (cp_Links m))) +:+ ";"
      +:+ mappings (canonical (cp_Links m))
      +:+ str (cp_RedistributionSplitRate m)
  | MsgDonate m =>
      "donate;" +:+ str (don_Username m) +:+ str (don_Amount m)
      +:+ str (don_Author m) +:+ str (don_PostID m) +:+ str (don_FromApp m)
      +:+ str (don_Memo m)
  | MsgValidatorDeposit m =>
      "deposit;" +:+ str (vd_Username m) +:+ str (vd_Deposit m)
      +:+ key (vd_ValPubKey m) +:+ str (vd_Link m)
  | MsgRevokePermission m =>
      "revoke;" +:+ str (rp_Username m) +:+ key (rp_PubKey m)
  end.

Definition EncodeSignMsg (m : Msg) (chainId : string) (seq : Z)
  : list byte * option error :=
  (list_byte_of_string (msg_text m +:+ str chainId +:+ pretty seq), None).

Definition EncodeTx (m : Msg) (pub : PubKey) (sig : Signature) (seq : Z)
  : list byte * option error :=
  (list_byte_of_string
     (msg_text m +:+ key pub +:+ str (string_of_list_byte (sig_bytes sig))
      +:+ pretty seq), None).

End encoding.

(** ** The classification of a broadcast response, as the spec words it

    These definitions follow the sentences of the specification, not the
    code; the theorems below compare them with [broadcast.after_select]. *)

Module spec.
Import Go ctypes model errors.

(** A byte as two uppercase hex digits. *)
Definition HEXTABLE : string := "0123456789ABCDEF".

Fixpoint upper_hex (h : list byte) : string :=
  match h with
  | [] => EmptyString
  | v :: rest =>
      String (at_index HEXTABLE (Byte.to_N v / 16))
        (String (at_index HEXTABLE (Byte.to_N v mod 16)) (upper_hex rest))
  end.

Definition Committed (hash : list byte) : broadcast.Result :=
  (Some {| CommitHash := upper_hex hash |}, None).

Definition failure (kind : CodeType) (text : string) (bcCode : N) (log : string)
  : broadcast.Result :=
  (None, Some {| code := kind; msg := text; cause := None;
                 blockChainCode := bcCode; blockChainLog := log |}).

Definition SequenceConflict := failure CodeInvalidSequenceNumber "invalid seq".
Definition MempoolRejected := failure CodeCheckTxFail "CheckTx failed!".
Definition ExecutionRejected := failure CodeDeliverTxFail "DeliverTx failed!".
Definition ParseFailure : broadcast.Result :=
  (None, Some {| code := CodeFailedToBroadcast;
                 msg := "error to parse the broadcast response"; cause := None;
                 blockChainCode := 0; blockChainLog := "" |}).

(** Full-commit mode: pending-pool code, else execution code, else
    committed. *)
Definition full_commit (r : ResultBroadcastTxCommit) : broadcast.Result :=
  if negb (tx_Code (CheckTx r) =? 0)
  then MempoolRejected (tx_Code (CheckTx r)) (tx_Log (CheckTx r))
  else if negb (tx_Code (DeliverTx r) =? 0)
  then ExecutionRejected (tx_Code (DeliverTx r)) (tx_Log (DeliverTx r))
  else Committed (commit_Hash r).

(** Confirm-only mode: the pending-pool code alone. *)
Definition confirm_only (r : ResultBroadcastTx) : broadcast.Result :=
  if negb (Code r =? 0)
  then MempoolRejected (Code r) (Log r)
  else Committed (Hash r).

(** The stale-sequence check on the low byte of a code. *)
Definition stale_sequence (bcCode : N) : bool :=
  bcCode mod 256 =? 154.

End spec.

(** ** Failing fast on a range scan

    [scan.fails_fast get prefix resKVs w]: whenever the scan under
    [prefix] made by [get] after the requests [w] returns [resKVs] and
    one of these entries does not decode, [get] returns no map and the
    decode error of one of them. *)

Module scan.
Import Go query.

Definition fails_fast `{Transport} `{Keys} {A} `{!Unmarshal A}
    (get : string -> string -> IO Lookup (result (gmap string A)))
    (prefix : string -> list byte) (resKVs : list KV) (w : list Lookup) : Prop :=
  forall author postID,
    QuerySubspace_reply w (prefix (getPermlink author postID)) PostKVStoreKey
    = (resKVs, None) ->
    (exists KV, KV ∈ resKVs /\ snd (UnmarshalJSON (A := A) (Value KV)) <> None) ->
    exists KV err,
      KV ∈ resKVs /\ snd (UnmarshalJSON (A := A) (Value KV)) = Some err
      /\ fst (get author postID w) = Err err.

End scan.

(** ** The operations that take hex public keys, and fixtures

    [keyed.Call] names a call of one of the four builders that parse hex
    public keys, [keyed.run] makes the call, and [keyed.public_keys]
    lists the hex public keys it was given, in the order they are
    parsed. *)

Module keyed.
Import Go model broadcast.

Inductive Call : Type :=
| CallRegister (referrer registerFee username resetPubKeyHex transactionPubKeyHex
    appPubKeyHex referrerPrivKeyHex : string) (seq : Z)
| CallRecover (username newResetPubKeyHex newTransactionPubKeyHex newAppPubKeyHex
    privKeyHex : string) (seq : Z)
| CallValidatorDeposit (username deposit validatorPubKey link privKeyHex : string)
    (seq : Z)
| CallRevokePermission (username pubKeyHex privKeyHex : string) (seq : Z).

Definition run `{Transport} (ctx : Select) (c : Call) : IO Started Result :=
  match c with
  | CallRegister referrer fee user reset tx app priv seq =>
      Register ctx referrer fee user reset tx app priv seq
  | CallRecover user reset tx app priv seq =>
      Recover ctx user reset tx app priv seq
  | CallValidatorDeposit user deposit val link priv seq =>
      ValidatorDeposit ctx user deposit val link priv seq
  | CallRevokePermission user pub priv seq =>
      RevokePermission ctx user pub priv seq
  end.

Definition public_keys (c : Call) : list string :=
  match c with
  | CallRegister _ _ _ reset tx app _ _ => [reset; tx; app]
  | CallRecover _ reset tx app _ _ => [reset; tx; app]
  | CallValidatorDeposit _ _ val _ _ _ => [val]
  | CallRevokePermission _ pub _ _ => [pub]
  end.

End keyed.

(** A transport for the broadcast package to run the builders on: the
    empty string is not a key, every submission is accepted. *)
Module fixture.
Import Go ctypes crypto model.

Definition GetPubKeyFromHex (hex : string) : PubKey * option error :=
  if decide (hex = "")
  then ({| pub_bytes := [] |}, Some (ErrorString "empty key"))
  else ({| pub_bytes := list_byte_of_string hex |}, None).

Definition accept (checkTxOnly : bool) : broadcast.Dyn * option error :=
  if checkTxOnly
  then (broadcast.DynResultBroadcastTx
          {| Code := 0; Log := ""; Hash := [Byte.xab; Byte.x12] |}, None)
  else (broadcast.DynResultBroadcastTxCommit
          {| CheckTx := {| tx_Code := 0; tx_Log := "" |};
             DeliverTx := {| tx_Code := 0; tx_Log := "" |};
             commit_Hash := [Byte.xab; Byte.x12] |}, None).

#[local] Instance node : broadcast.Transport := {|
  broadcast.GetPubKeyFromHex := GetPubKeyFromHex;
  broadcast.SignBuildBroadcast := fun _ _ _ _ _ checkTxOnly => accept checkTxOnly;
  broadcast.fmt_v := encoding.msg_text
|}.

(** A store for the query package: keys are permlinks, a value decodes
    unless it is empty, the metadata of [bob#1] is missing, and the range
    scan returns three entries of which the second is empty. *)
Definition bytes (s : string) : list byte := list_byte_of_string s.

Definition zero_info : query.PostInfo := {|
  query.pi_PostID := ""; query.pi_Title := ""; query.pi_Content := "";
  query.pi_Author := ""; query.pi_ParentAuthor := ""; query.pi_ParentPostID := "";
  query.pi_SourceAuthor := ""; query.pi_SourcePostID := ""; query.pi_Links := [] |}.

Definition zero_meta : query.PostMeta := {|
  query.pm_CreatedAt := 0; query.pm_LastUpdatedAt := 0; query.pm_LastActivityAt := 0;
  query.pm_AllowReplies := false; query.pm_IsDeleted := false;
  query.pm_TotalDonateCount := 0;
  query.pm_TotalReportCoinDay := {| query.Amount := 0 |};
  query.pm_TotalUpvoteCoinDay := {| query.Amount := 0 |};
  query.pm_TotalViewCount := 0;
  query.pm_TotalReward := {| query.Amount := 0 |};
  query.pm_RedistributionSplitRate := "" |}.

Definition truncated : error := ErrorString "unexpected end of JSON input".

#[local] Instance unmarshal_info : query.Unmarshal query.PostInfo := fun bz =>
  if decide (bz = []) then (zero_info, Some truncated)
  else ({| query.pi_PostID := "1"; query.pi_Title := ""; query.pi_Content := "";
           query.pi_Author := string_of_list_byte bz;
           query.pi_ParentAuthor := ""; query.pi_ParentPostID := "";
           query.pi_SourceAuthor := ""; query.pi_SourcePostID := "";
           query.pi_Links := [] |}, None).

#[local] Instance unmarshal_meta : query.Unmarshal query.PostMeta := fun bz =>
  if decide (bz = []) then (zero_meta, Some truncated) else (zero_meta, None).

(** A comment is stored as the name of its author. *)
#[local] Instance unmarshal_comment : query.Unmarshal string := fun bz =>
  if decide (bz = []) then ("", Some truncated) else (string_of_list_byte bz, None).

Definition missing : error := ErrorString "Query failed: (1) not found".

#[local] Instance store : query.Transport := {|
  query.Query_reply := fun _ key _ =>
    if decide (string_of_list_byte key = "bob#1") then ([], Some missing) else (key, None);
  query.QuerySubspace_reply := fun _ subspace _ =>
    if decide (string_of_list_byte subspace = "bob/")
    then ([ {| query.Key := bytes "k1"; query.Value := bytes "alice" |};
            {| query.Key := bytes "k2"; query.Value := bytes "bob" |} ], None)
    else ([ {| query.Key := bytes "k1"; query.Value := bytes "alice" |};
            {| query.Key := bytes "k2"; query.Value := [] |};
            {| query.Key := bytes "k3"; query.Value := bytes "carol" |} ], None)
|}.

#[local] Instance keys : query.Keys := {|
  query.PostKVStoreKey := "post";
  query.PermLinkSeparator := bytes "/";
  query.getPermlink := fun author postID => author +:+ "#" +:+ postID;
  query.getPostInfoKey := bytes;
  query.getPostMetaKey := bytes;
  query.getPostCommentKey := fun permlink comment => bytes (permlink +:+ "/" +:+ comment);
  query.getPostViewKey := fun permlink user => bytes (permlink +:+ "/" +:+ user);
  query.getUserPostInfoPrefix := bytes;
  query.getPostCommentPrefix := bytes;
  query.getPostViewPrefix := bytes;
  query.getPostDonationsPrefix := bytes;
  query.getPostReportOrUpvotePrefix := bytes;
  query.getSubstringAfterSubstore := string_of_list_byte;
  query.getSubstringAfterKeySeparator := string_of_list_byte
|}.

(** A node for [core.go]: the post store echoes the key, any other store
    is unknown. *)
Definition client : transport.Client := {|
  transport.ABCIQuery_reply := fun _ path key =>
    if decide (path = "/post/key")
    then transport.Replied
           {| Response := {| rq_Code := 0; rq_Value := key; rq_Log := "" |} |}
    else transport.Replied
           {| Response := {| rq_Code := 7; rq_Value := []; rq_Log := "unknown store" |} |};
  transport.BroadcastTxCommit_reply := fun _ _ =>
    transport.Replied
      {| CheckTx := {| tx_Code := 0; tx_Log := "" |};
         DeliverTx := {| tx_Code := 0; tx_Log := "" |};
         commit_Hash := [Byte.xab; Byte.x12] |}
|}.

End fixture.

(** ** query/post.go: the other point getters *)

Module getters.
Import Go model query.

Section Getters.
Context `{Transport} `{Keys}.

Definition GetPostInfo `{!Unmarshal PostInfo} (author postID : string)
  : IO Lookup (result PostInfo) :=
  let permlink := getPermlink author postID in
  bind (Query (getPostInfoKey permlink) PostKVStoreKey) (fun r =>
    match snd r with
    | Some err => ret (Err err)
    | None =>
        match UnmarshalJSON (fst r) with
        | (_, Some err) => ret (Err err)
        | (postInfo, None) => ret (Ok postInfo)
        end
    end).

Definition GetPostComment {Comment} `{!Unmarshal Comment}
    (author postID commentPermlink : string) : IO Lookup (result Comment) :=
  let permlink := getPermlink author postID in
  bind (Query (getPostCommentKey permlink commentPermlink) PostKVStoreKey) (fun r =>
    match snd r with
    | Some err => ret (Err err)
    | None =>
        match UnmarshalJSON (fst r) with
        | (_, Some err) => ret (Err err)
        | (comment, None) => ret (Ok comment)
        end
    end).

Definition GetPostView {View} `{!Unmarshal View}
    (author postID viewUser : string) : IO Lookup (result View) :=
  let permlink := getPermlink author postID in
  bind (Query (getPostViewKey permlink viewUser) PostKVStoreKey) (fun r =>
    match snd r with
    | Some err => ret (Err err)
    | None =>
        match UnmarshalJSON (fst r) with
        | (_, Some err) => ret (Err err)
        | (view, None) => ret (Ok view)
        end
    end).

End Getters.

(** A point getter of post.go, by name, with the key it asks for. *)
Inductive Getter : Type :=
| PostInfoOf (author postID : string)
| PostMetaOf (author postID : string)
| PostCommentOf (author postID commentPermlink : string)
| PostViewOf (author postID viewUser : string).

Definition key_of `{Keys} (g : Getter) : list byte :=
  match g with
  | PostInfoOf author postID => getPostInfoKey (getPermlink author postID)
  | PostMetaOf author postID => getPostMetaKey (getPermlink author postID)
  | PostCommentOf author postID commentPermlink =>
      getPostCommentKey (getPermlink author postID) commentPermlink
  | PostViewOf author postID viewUser =>
      getPostViewKey (getPermlink author postID) viewUser
  end.

(** [answers get key w]: after the requests [w], the getter [get] makes
    the one request for [key] in the post store; it returns an error of
    the transport, or else an error of the decoder, as it is; and it
    returns a record exactly when there is neither. *)
Definition answers `{Transport} `{Keys} {A} `{!Unmarshal A}
    (get : IO Lookup (result A)) (key : list byte) (w : list Lookup) : Prop :=
  let reply := Query_reply w key PostKVStoreKey in
  snd (get w) = w ++ [CallQuery key PostKVStoreKey]
  /\ (forall e, snd reply = Some e -> fst (get w) = Err e)
  /\ (forall e, snd reply = None ->
                snd (UnmarshalJSON (A := A) (fst reply)) = Some e ->
                fst (get w) = Err e)
  /\ (forall record,
        fst (get w) = Ok record
        <-> snd reply = None /\ UnmarshalJSON (fst reply) = (record, None)).

End getters.

(** ** query/validator.go *)

Module validator.
Import Go query.

Record ValidatorList := {
  OncallValidators : list string;
  AllValidators : list string;
  PreBlockValidators : list string;
  LowestPower : Coin;
  LowestValidator : string }.

Record Validator := {
  Username : string;
  Deposit : Coin;
  AbsentCommit : Z }.

(** The validator store and its keys, taken as given. *)
Class Keys := {
  ValidatorKVStoreKey : string;
  getValidatorKey : string -> list byte;
  getValidatorListKey : list byte
}.

Section Validators.
Context `{Transport} `{Keys}.
Context `{!Unmarshal Validator} `{!Unmarshal ValidatorList}.

Definition GetValidator (username : string)
  : IO Lookup (option Validator * option error) :=
  bind (Query (getValidatorKey username) ValidatorKVStoreKey) (fun r =>
    match snd r with
    | Some err => ret (None, Some err)
    | None =>
        match UnmarshalJSON (fst r) with
        | (_, Some err) => ret (None, Some err)
        | (validator, None) => ret (Some validator, None)
        end
    end).

(** On a decode error [GetAllValidators] returns the list it allocated,
    as the decoder left it, together with the error. *)
Definition GetAllValidators : IO Lookup (option ValidatorList * option error) :=
  bind (Query getValidatorListKey ValidatorKVStoreKey) (fun r =>
    match snd r with
    | Some err => ret (None, Some err)
    | None =>
        match UnmarshalJSON (fst r) with
        | (validatorList, Some err) => ret (Some validatorList, Some err)
        | (validatorList, None) => ret (Some validatorList, None)
        end
    end).

End Validators.

End validator.

(** ** The builders of the broadcast package, by name

    [calls.Call] names a call of one of the builders embedded above,
    [calls.run] makes it. *)

Module calls.
Import Go model broadcast.

Inductive Call : Type :=
| Keyed (c : keyed.Call)
| CallTransfer (sender receiver amount memo privKeyHex : string) (seq : Z)
| CallCreatePost (sync : bool) (order : list (string * string))
    (author postID title content parentAuthor parentPostID sourceAuthor
     sourcePostID redistributionSplitRate : string)
    (links : gmap string string) (privKeyHex : string) (seq : Z)
| CallDonate (sync : bool) (username author amount postID fromApp memo
    privKeyHex : string) (seq : Z).

Definition run `{Transport} (ctx : Select) (c : Call) : IO Started Result :=
  match c with
  | Keyed c => keyed.run ctx c
  | CallTransfer sender receiver amount memo priv seq =>
      Transfer ctx sender receiver amount memo priv seq
  | CallCreatePost false order a p t c pa pp sa sp rate links priv seq =>
      CreatePost ctx order a p t c pa pp sa sp rate links priv seq
  | CallCreatePost true order a p t c pa pp sa sp rate links priv seq =>
      CreatePostSync ctx order a p t c pa pp sa sp rate links priv seq
  | CallDonate false username author amount postID fromApp memo priv seq =>
      Donate ctx username author amount postID fromApp memo priv seq
  | CallDonate true username author amount postID fromApp memo priv seq =>
      DonateSync ctx username author amount postID fromApp memo priv seq
  end.

(** The hex public keys, the signer's key, the sequence number and the
    mode of a call. *)
Definition public_keys (c : Call) : list string :=
  match c with
  | Keyed c => keyed.public_keys c
  | _ => []
  end.

Definition signer (c : Call) : string :=
  match c with
  | Keyed (keyed.CallRegister _ _ _ _ _ _ priv _) => priv
  | Keyed (keyed.CallRecover _ _ _ _ priv _) => priv
  | Keyed (keyed.CallValidatorDeposit _ _ _ _ priv _) => priv
  | Keyed (keyed.CallRevokePermission _ _ priv _) => priv
  | CallTransfer _ _ _ _ priv _ => priv
  | CallCreatePost _ _ _ _ _ _ _ _ _ _ _ _ priv _ => priv
  | CallDonate _ _ _ _ _ _ _ priv _ => priv
  end.

Definition sequence (c : Call) : Z :=
  match c with
  | Keyed (keyed.CallRegister _ _ _ _ _ _ _ seq) => seq
  | Keyed (keyed.CallRecover _ _ _ _ _ seq) => seq
  | Keyed (keyed.CallValidatorDeposit _ _ _ _ _ seq) => seq
  | Keyed (keyed.CallRevokePermission _ _ _ seq) => seq
  | CallTransfer _ _ _ _ _ seq => seq
  | CallCreatePost _ _ _ _ _ _ _ _ _ _ _ _ _ seq => seq
  | CallDonate _ _ _ _ _ _ _ _ seq => seq
  end.

Definition sync (c : Call) : bool :=
  match c with
  | CallCreatePost sync _ _ _ _ _ _ _ _ _ _ _ _ _ => sync
  | CallDonate sync _ _ _ _ _ _ _ _ => sync
  | _ => false
  end.

End calls.

(** Further instances to run the code on. *)
Module samples.
Import Go ctypes crypto model.

(** A codec over the canonical encoding; a signature is the key
    followed by the bytes signed. *)
#[local] Instance codec : transport.Codec := {|
  transport.EncodeSignMsg := encoding.EncodeSignMsg;
  transport.EncodeTx := encoding.EncodeTx;
  transport.Sign := fun priv bz => {| sig_bytes := priv_bytes priv ++ bz |};
  transport.PubKeyOf := fun priv => {| pub_bytes := priv_bytes priv |}
|}.

(** A codec that cannot encode a transaction. *)
#[local] Instance broken_codec : transport.Codec := {|
  transport.EncodeSignMsg := encoding.EncodeSignMsg;
  transport.EncodeTx := fun _ _ _ _ => ([], Some (ErrorString "unregistered type"));
  transport.Sign := fun priv bz => {| sig_bytes := priv_bytes priv ++ bz |};
  transport.PubKeyOf := fun priv => {| pub_bytes := priv_bytes priv |}
|}.

(** A node that rejects every transaction at execution. *)
Definition rejecting : transport.Client := {|
  transport.ABCIQuery_reply := transport.ABCIQuery_reply fixture.client;
  transport.BroadcastTxCommit_reply := fun _ _ =>
    transport.Replied
      {| CheckTx := {| tx_Code := 0; tx_Log := "" |};
         DeliverTx := {| tx_Code := 3; tx_Log := "out of gas" |};
         commit_Hash := [Byte.xab; Byte.x12] |}
|}.

#[local] Instance validator_keys : validator.Keys := {|
  validator.ValidatorKVStoreKey := "validator";
  validator.getValidatorKey := fixture.bytes;
  validator.getValidatorListKey := fixture.bytes "list"
|}.

Definition no_validators : validator.ValidatorList := {|
  validator.OncallValidators := []; validator.AllValidators := [];
  validator.PreBlockValidators := [];
  validator.LowestPower := {| query.Amount := 0 |};
  validator.LowestValidator := "" |}.

(** The list decoder reads the name of the lowest validator and then
    fails on a truncated value. *)
#[local] Instance unmarshal_validators : query.Unmarshal validator.ValidatorList :=
  fun bz =>
    ({| validator.OncallValidators := []; validator.AllValidators := [];
        validator.PreBlockValidators := [];
        validator.LowestPower := {| query.Amount := 0 |};
        validator.LowestValidator := string_of_list_byte bz |},
     Some fixture.truncated).

#[local] Instance unmarshal_validator : query.Unmarshal validator.Validator :=
  fun bz =>
    if decide (bz = [])
    then ({| validator.Username := ""; validator.Deposit := {| query.Amount := 0 |};
             validator.AbsentCommit := 0 |}, Some fixture.truncated)
    else ({| validator.Username := string_of_list_byte bz;
             validator.Deposit := {| query.Amount := 0 |};
             validator.AbsentCommit := 0 |}, None).

(** A cancelled call that has returned its timeout. *)
Definition deadline : error := ErrorString "context deadline exceeded".

Definition tip : Msg := broadcast.donate_msg "alice" "bob" "1" "post" "app" "".

Definition timed_out : broadcast.Race := {|
  broadcast.worker := broadcast.Running;
  broadcast.res_var := broadcast.DynOther;
  broadcast.err_var := None;
  broadcast.cancelled := Some deadline;
  broadcast.caller :=
    broadcast.Returned (broadcast.timeout (H := fixture.node) tip deadline)
|}.

(** A store in which every post has its metadata; a scan returns two
    posts. *)
#[local] Instance full_store : query.Transport := {|
  query.Query_reply := fun _ key _ => (key, None);
  query.QuerySubspace_reply := fun _ _ _ =>
    ([ {| query.Key := fixture.bytes "k1"; query.Value := fixture.bytes "alice" |};
       {| query.Key := fixture.bytes "k2"; query.Value := fixture.bytes "carol" |} ],
     None)
|}.

End samples.

(** ** What holds in every state of the race *)

Module interleaving.
Import Go model broadcast.

(** While the caller is in the [select] the goroutine has not got past
    its send; once the caller has returned, either the send was received
    and the result is the interpretation of [res] and [err] as they are,
    or the goroutine has not exited, the context is cancelled and the
    result is the timeout with its error. *)
Definition race_invariant `{Transport} (m : Msg) (checkTxOnly : bool) (s : Race) : Prop :=
  match caller s with
  | Selecting => worker s <> Exited
  | Returned out =>
      (worker s = Exited
       /\ out = after_select checkTxOnly (res_var s) (err_var s))
      \/ (worker s <> Exited
          /\ exists ctxErr, cancelled s = Some ctxErr /\ out = timeout m ctxErr)
  end.

End interleaving.

(** ** What a decode-only aggregate gathers

    For an aggregate [get] scanning under [prefix], after the requests
    [w]: [scan.entry] is the map entry made from a scanned pair;
    [scan.gathers] says that when the scan returns [resKVs], [get]
    succeeds exactly when every pair decodes, and then returns the pairs
    inserted in scan order, so that of several pairs with the same derived
    key the last one stays; [scan.asks_once] says that [get] makes the one
    scan request, returns a failure of the scan as it is, and returns an
    empty map, not an error, for an empty scan. *)

Module gather.
Import Go query.

Definition entry `{Keys} {A} `{!Unmarshal A} (KV : KV) : string * A :=
  (getSubstringAfterKeySeparator (Key KV), fst (UnmarshalJSON (Value KV))).

Definition decodes {A} `{!Unmarshal A} (KV : KV) : Prop :=
  snd (UnmarshalJSON (A := A) (Value KV)) = None.

Definition gathers `{Transport} `{Keys} {A} `{!Unmarshal A}
    (get : string -> string -> IO Lookup (result (gmap string A)))
    (prefix : string -> list byte) (resKVs : list KV) (w : list Lookup) : Prop :=
  forall author postID,
    QuerySubspace_reply w (prefix (getPermlink author postID)) PostKVStoreKey
    = (resKVs, None) ->
    ((exists m, fst (get author postID w) = Ok m)
     <-> Forall (decodes (A := A)) resKVs)
    /\ forall m,
         fst (get author postID w) = Ok m ->
         m = foldl (fun acc KV => <[fst (entry KV) := snd (entry KV)]> acc) ∅ resKVs
         /\ (size m <= length resKVs)%nat
         /\ forall pre KV post,
              resKVs = pre ++ KV :: post ->
              Forall (fun KV' => fst (entry (A := A) KV') <> fst (entry (A := A) KV))
                post ->
              m !! fst (entry (A := A) KV) = Some (snd (entry KV)).

Definition asks_once `{Transport} `{Keys} {A} `{!Unmarshal A}
    (get : string -> string -> IO Lookup (result (gmap string A)))
    (prefix : string -> list byte) (w : list Lookup) : Prop :=
  forall author postID,
    let subspace := prefix (getPermlink author postID) in
    let reply := QuerySubspace_reply w subspace PostKVStoreKey in
    snd (get author postID w) = w ++ [CallQuerySubspace subspace PostKVStoreKey]
    /\ (forall e, snd reply = Some e -> fst (get author postID w) = Err e)
    /\ (reply = ([], None) -> fst (get author postID w) = Ok ∅).

(** The metadata lookup that [GetUserAllPosts] makes for a scanned pair. *)
Definition meta_lookup `{Keys} `{!Unmarshal PostInfo} (KV : KV) : Lookup :=
  let postInfo := fst (UnmarshalJSON (Value KV)) in
  CallQuery (getPostMetaKey (getPermlink (pi_Author postInfo) (pi_PostID postInfo)))
    PostKVStoreKey.

(** What the metadata lookup for a scanned pair returns when it is made
    after the requests [w0] and the lookups of the [j] pairs before it. *)
Definition lookup_result `{Transport} `{Keys} `{!Unmarshal PostInfo}
    `{!Unmarshal PostMeta} (w0 : list Lookup) (resKVs : list KV) (j : nat)
    (KV : KV) : result PostMeta :=
  let postInfo := fst (UnmarshalJSON (Value KV)) in
  fst (GetPostMeta (pi_Author postInfo) (pi_PostID postInfo)
         (w0 ++ map meta_lookup (take j resKVs))).

(** Every post of the map comes from a scanned pair that decodes: it is
    filed under the key segment of the pair and merges the decoded post
    info with metadata that a lookup for its author and post id
    returned. *)
Definition built_from `{Transport} `{Keys} `{!Unmarshal PostInfo}
    `{!Unmarshal PostMeta} (resKVs : list KV) (m : gmap string Post) : Prop :=
  forall k post,
    m !! k = Some post ->
    exists KV pm w1,
      KV ∈ resKVs
      /\ k = getSubstringAfterSubstore (Key KV)
      /\ snd (UnmarshalJSON (A := PostInfo) (Value KV)) = None
      /\ fst (GetPostMeta (pi_Author (fst (UnmarshalJSON (Value KV))))
                (pi_PostID (fst (UnmarshalJSON (Value KV)))) w1) = Ok pm
      /\ post = make_post (fst (UnmarshalJSON (Value KV))) pm.

End gather.

(** * Properties *)

Import Go ctypes crypto model errors.

(** ** Hex rendering of the commit hash *)

(** A number below 16, bit by bit. *)
Ltac below_16 n :=
  destruct n as [| p]; [reflexivity |];
  do 4 (destruct p as [p | p |]; try reflexivity); lia.

Lemma hextable_upper n :
  n < 16 -> upper_byte (at_index hextable n) = at_index spec.HEXTABLE n.
Proof. intros Hn. below_16 n. Qed.

Lemma HEXTABLE_is_upper_hex n :
  n < 16 -> is_upper_hex (at_index spec.HEXTABLE n) = true.
Proof. intros Hn. below_16 n. Qed.

Lemma byte_lt_256 (v : byte) : Byte.to_N v < 256.
Proof. pose proof (Byte.to_N_bounded v). lia. Qed.

Lemma nibbles_lt_16 (v : byte) : Byte.to_N v / 16 < 16 /\ Byte.to_N v mod 16 < 16.
Proof.
  pose proof (byte_lt_256 v) as Hv. split.
  - apply N.Div0.div_lt_upper_bound. lia.
  - apply N.mod_lt. lia.
Qed.

Lemma ToUpper_EncodeToString (h : list byte) :
  ToUpper (EncodeToString h) = spec.upper_hex h.
Proof.
  induction h as [| v rest IH]; [reflexivity |].
  cbn [EncodeToString ToUpper spec.upper_hex]. rewrite IH.
  destruct (nibbles_lt_16 v) as [Hhi Hlo].
  rewrite N.shiftr_div_pow2. change (2 ^ 4) with 16.
  change 15 with (N.ones 4). rewrite N.land_ones. change (2 ^ 4) with 16.
  now rewrite !hextable_upper.
Qed.

Lemma upper_hex_chars (h : list byte) :
  all_chars is_upper_hex (spec.upper_hex h) = true
  /\ String.length (spec.upper_hex h) = (2 * length h)%nat.
Proof.
  induction h as [| v rest [IHc IHl]]; [split; reflexivity |].
  destruct (nibbles_lt_16 v) as [Hhi Hlo].
  cbn [spec.upper_hex all_chars String.length length].
  rewrite !HEXTABLE_is_upper_hex, IHc, IHl by assumption.
  split; [reflexivity | lia].
Qed.

Example commit_hash_AB12 :
  ToUpper (EncodeToString [Byte.xab; Byte.x12]) = "AB12".
Proof. reflexivity. Qed.

(** ** The result interpreter of [broadcastTransaction] *)

(** Unfold the interpreter and the outcomes of the spec on a response. *)
Ltac classify :=
  unfold broadcast.after_select, spec.full_commit, spec.confirm_only, spec.MempoolRejected,
    spec.ExecutionRejected, spec.SequenceConflict, spec.Committed, spec.failure;
  cbn [broadcast.is_nil andb Code Log Hash CheckTx DeliverTx commit_Hash tx_Code tx_Log].

Section Interpreter.
Import broadcast.

Lemma mask_is_low_byte (bcCode : N) :
  retrieveCodeFromBlockChainCode bcCode = bcCode mod 256.
Proof.
  unfold retrieveCodeFromBlockChainCode.
  change 255 with (N.ones 8). now rewrite N.land_ones.
Qed.

(** Whatever the higher-order bits, the low byte decides. *)
Lemma low_byte_ignores_high_bits (high : N) :
  retrieveCodeFromBlockChainCode (154 + 256 * high) = InvalidSeqErrCode.
Proof.
  rewrite mask_is_low_byte, (N.mul_comm 256 high), N.Div0.mod_add.
  reflexivity.
Qed.

Lemma stale_code_nonzero (bcCode : N) :
  retrieveCodeFromBlockChainCode bcCode = InvalidSeqErrCode -> bcCode <> 0.
Proof. intros Hlow ->. discriminate Hlow. Qed.

(** C2.  Whenever the pending-pool code of a response, masked to its low
    byte, is the stale-sequence code 154, the call is classified as
    [InvalidSequenceNumber] carrying the unmasked code and the log, in
    confirm-only mode and in full-commit mode alike, and so is the code
    with any higher-order bits added; such a code is non-zero, so the
    check comes before the non-zero test, which would have made it a
    [CheckTxFail]. *)
Theorem stale_sequence_classified_first (bcCode : N) (log : string) :
  retrieveCodeFromBlockChainCode bcCode = InvalidSeqErrCode ->
  (forall hash,
     after_select true
       (DynResultBroadcastTx {| Code := bcCode; Log := log; Hash := hash |}) None
     = spec.SequenceConflict bcCode log)
  /\ (forall deliver hash,
        after_select false
          (DynResultBroadcastTxCommit
             {| CheckTx := {| tx_Code := bcCode; tx_Log := log |};
                DeliverTx := deliver; commit_Hash := hash |}) None
        = spec.SequenceConflict bcCode log)
  /\ (forall high,
        retrieveCodeFromBlockChainCode (bcCode + 256 * high) = InvalidSeqErrCode)
  /\ bcCode <> 0
  /\ spec.SequenceConflict bcCode log <> spec.MempoolRejected bcCode log.
Proof.
  intros Hlow. split; [| split; [| split; [| split]]].
  - intros hash. classify. rewrite Hlow. reflexivity.
  - intros deliver hash. classify. rewrite Hlow. reflexivity.
  - intros high. rewrite mask_is_low_byte in *.
    now rewrite (N.mul_comm 256 high), N.Div0.mod_add.
  - now apply stale_code_nonzero.
  - discriminate.
Qed.

Lemma stale_sequence_classified_first_witness :
  after_select true
    (DynResultBroadcastTx {| Code := 410; Log := "seq"; Hash := [] |}) None
  = spec.SequenceConflict 410 "seq".
Proof.
  apply (stale_sequence_classified_first 410 "seq").
  vm_compute. reflexivity.
Defined.

(** C1, as amended.  In full-commit mode a response whose pending-pool
    code does not have the stale-sequence code in its low byte is
    classified in this order: a non-zero pending-pool code is a
    [CheckTxFail] with that code and log, else a non-zero execution code is
    a [DeliverTxFail] with that code and log, else the call succeeds with
    the hash in uppercase hex. *)
Theorem full_commit_classified (r : ResultBroadcastTxCommit) :
  retrieveCodeFromBlockChainCode (tx_Code (CheckTx r)) <> InvalidSeqErrCode ->
  after_select false (DynResultBroadcastTxCommit r) None = spec.full_commit r.
Proof.
  intros Hlow. classify.
  apply N.eqb_neq in Hlow. rewrite Hlow.
  destruct (tx_Code (CheckTx r) =? 0); [| reflexivity].
  destruct (tx_Code (DeliverTx r) =? 0); [| reflexivity].
  cbn [negb]. now rewrite ToUpper_EncodeToString.
Qed.

Lemma full_commit_classified_witness :
  after_select false
    (DynResultBroadcastTxCommit
       {| CheckTx := {| tx_Code := 0; tx_Log := "" |};
          DeliverTx := {| tx_Code := 3; tx_Log := "out of gas" |};
          commit_Hash := [Byte.xab; Byte.x12] |}) None
  = spec.ExecutionRejected 3 "out of gas".
Proof.
  rewrite full_commit_classified.
  - reflexivity.
  - vm_compute. discriminate.
Defined.

(** C1 as stated fails: a pending-pool code of 154 is non-zero, and the
    call is an [InvalidSequenceNumber], not a [CheckTxFail]. *)
Lemma full_commit_stale_code_is_not_mempool_rejected :
  let r := {| CheckTx := {| tx_Code := 154; tx_Log := "stale" |};
              DeliverTx := {| tx_Code := 0; tx_Log := "" |};
              commit_Hash := [] |} in
  tx_Code (CheckTx r) <> 0
  /\ spec.full_commit r = spec.MempoolRejected 154 "stale"
  /\ after_select false (DynResultBroadcastTxCommit r) None
     = spec.SequenceConflict 154 "stale"
  /\ after_select false (DynResultBroadcastTxCommit r) None <> spec.full_commit r.
Proof. repeat split; vm_compute; discriminate. Qed.

(** C3, as amended.  In confirm-only mode only the pending-pool code of
    the response is looked at: when its low byte is not the
    stale-sequence code, a non-zero code is a [CheckTxFail] with that code
    and log and a zero code succeeds with the hash in uppercase hex; a
    response of the full-commit shape is not read at all. *)
Theorem confirm_only_classified (r : ResultBroadcastTx) :
  retrieveCodeFromBlockChainCode (Code r) <> InvalidSeqErrCode ->
  after_select true (DynResultBroadcastTx r) None = spec.confirm_only r
  /\ forall rc, after_select true (DynResultBroadcastTxCommit rc) None
                = spec.ParseFailure.
Proof.
  intros Hlow. split; [| reflexivity]. classify.
  apply N.eqb_neq in Hlow. rewrite Hlow.
  destruct (Code r =? 0); [| reflexivity].
  cbn [negb]. now rewrite ToUpper_EncodeToString.
Qed.

Lemma confirm_only_classified_witness :
  after_select true
    (DynResultBroadcastTx {| Code := 0; Log := ""; Hash := [Byte.xab; Byte.x12] |})
    None
  = (Some {| CommitHash := "AB12" |}, None).
Proof.
  pose proof (confirm_only_classified
                {| Code := 0; Log := ""; Hash := [Byte.xab; Byte.x12] |}) as Hc.
  destruct Hc as [Hc _].
  - vm_compute. discriminate.
  - rewrite Hc. reflexivity.
Defined.

(** C3 as stated fails: in confirm-only mode a pending-pool code of 154
    is non-zero, and the call is an [InvalidSequenceNumber], not a
    [CheckTxFail]. *)
Lemma confirm_only_stale_code_is_not_mempool_rejected :
  let r := {| Code := 154; Log := "stale"; Hash := [] |} in
  Code r <> 0
  /\ spec.confirm_only r = spec.MempoolRejected 154 "stale"
  /\ after_select true (DynResultBroadcastTx r) None
     = spec.SequenceConflict 154 "stale"
  /\ after_select true (DynResultBroadcastTx r) None <> spec.confirm_only r.
Proof. repeat split; vm_compute; discriminate. Qed.

End Interpreter.

(** ** The broadcast pipeline *)

Section Pipeline.
Import broadcast.
Context `{Transport}.

Lemma broadcastTransaction_run (sel : Select) (msg : Msg) (privKeyHex : string)
    (seq : Z) (memo : string) (checkTxOnly : bool) (log : History) :
  broadcastTransaction sel msg privKeyHex seq memo checkTxOnly log
  = (match sel with
     | RecvFinish =>
         after_select checkTxOnly
           (fst (SignBuildBroadcast log msg privKeyHex seq memo checkTxOnly))
           (snd (SignBuildBroadcast log msg privKeyHex seq memo checkTxOnly))
     | RecvDone ctxErr => timeout msg ctxErr
     end,
     log ++ [GoSignBuildBroadcast msg privKeyHex seq memo checkTxOnly]).
Proof.
  unfold broadcastTransaction, bind, call, ret. now destruct sel.
Qed.

(** Once the caller has returned, nothing changes what it returned. *)
Lemma returned_is_final (msg : Msg) (checkTxOnly : bool) (s s' : Race) (out : Result) :
  rtc (step msg checkTxOnly) s s' -> caller s = Returned out -> caller s' = Returned out.
Proof.
  induction 1 as [| s s1 s2 Hstep _ IH]; [trivial |].
  intros Hret. apply IH. destruct Hstep as [Henv | Hcall].
  - destruct Henv; exact Hret.
  - destruct Hcall; congruence.
Qed.

(** Every way out of the [select] is one of the two cases of
    [broadcastTransaction]. *)
Lemma race_outcomes (msg : Msg) (checkTxOnly : bool) (ctx : option error)
    (s : Race) (out : Result) :
  rtc (step msg checkTxOnly) (started ctx) s -> caller s = Returned out ->
  (exists res err, out = after_select checkTxOnly res err)
  \/ (exists ctxErr, out = timeout msg ctxErr).
Proof.
  intros Hrun. revert out.
  apply (rtc_ind_r (R := step msg checkTxOnly)
           (fun s => forall out, caller s = Returned out ->
              (exists res err, out = after_select checkTxOnly res err)
              \/ (exists ctxErr, out = timeout msg ctxErr))
           (started ctx)); [discriminate | | exact Hrun].
  intros s1 s2 _ Hstep IH out Hret. destruct Hstep as [Henv | Hcall].
  - destruct Henv; exact (IH _ Hret).
  - destruct Hcall as [s0 _ _ | s0 ctxErr _ _]; cbn in Hret; injection Hret as <-.
    + left. eauto.
    + right. eauto.
Qed.

(** C4, as amended.  When the caller leaves the [select] while the
    context is cancelled and the goroutine is still inside the pipeline,
    it can do so at once, without any step of the goroutine; it returns a
    nil response and a [Timeout] error whose cause is [ctx.Err()]; the
    goroutine is left running; and whatever the pipeline yields
    afterwards, what the caller returned stays as it is.  When the
    goroutine finishes the pipeline before the caller has left the
    [select], both cases are ready: the caller may leave with the timeout
    or with the interpretation of what the goroutine assigned. *)
Theorem cancellation_yields_timeout (msg : Msg) (checkTxOnly : bool) (s : Race)
    (ctxErr : error) :
  caller s = Selecting -> cancelled s = Some ctxErr -> worker s = Running ->
  let out : Result :=
    (None, Some {| code := CodeTimeout; msg := "msg timeout: " +:+ fmt_v msg;
                   cause := Some ctxErr; blockChainCode := 0;
                   blockChainLog := "" |}) in
  (exists s', caller_step msg checkTxOnly s s')
  /\ (forall s', caller_step msg checkTxOnly s s' ->
        caller s' = Returned out /\ worker s' = Running
        /\ forall s'', rtc (step msg checkTxOnly) s' s'' -> caller s'' = Returned out)
  /\ (forall res err,
        let ready := {| worker := Sending; res_var := res; err_var := err;
                        cancelled := cancelled s; caller := caller s |} in
        env_step s ready
        /\ (exists t, caller_step msg checkTxOnly ready t /\ caller t = Returned out)
        /\ (exists t, caller_step msg checkTxOnly ready t
                      /\ caller t = Returned (after_select checkTxOnly res err))).
Proof.
  intros Hsel Hctx Hrun out. split; [| split].
  - eexists. now apply recv_done with (ctxErr := ctxErr).
  - intros s' Hstep.
    assert (caller s' = Returned out /\ worker s' = Running) as [Hout Hw].
    { destruct Hstep as [s _ Hsend | s e _ He]; [congruence |].
      rewrite Hctx in He. injection He as <-. now split. }
    repeat split; [exact Hout | exact Hw |].
    intros s'' Hrest. now apply (returned_is_final msg checkTxOnly s').
  - intros res err ready. split; [now apply env_complete | split].
    + eexists. split; [apply (recv_done msg checkTxOnly ready ctxErr) |];
        [exact Hsel | exact Hctx | reflexivity].
    + eexists. split; [apply (recv_finish msg checkTxOnly ready) |];
        [exact Hsel | reflexivity | reflexivity].
Qed.

(** C10.  In confirm-only mode the [DeliverTxFail] return cannot be
    reached, since its guard repeats the test of the [CheckTxFail] return
    before it: no error of that kind ever comes out, and a response (no
    pipeline error) ends as exactly one of [InvalidSequenceNumber],
    [CheckTxFail], the parse failure, or success.  Nor does any call of
    [broadcastTransaction] in that mode, however the [select] goes. *)
Theorem confirm_only_never_execution_rejected (res : Dyn) (err : option error) :
  (forall e, snd (after_select true res err) = Some e -> code e <> CodeDeliverTxFail)
  /\ ((exists c l, after_select true res None = spec.SequenceConflict c l)
      \/ (exists c l, after_select true res None = spec.MempoolRejected c l)
      \/ after_select true res None = spec.ParseFailure
      \/ (exists h, after_select true res None = spec.Committed h))
  /\ (forall sel m privKeyHex seq memo log e,
        snd (fst (broadcastTransaction sel m privKeyHex seq memo true log)) = Some e ->
        code e <> CodeDeliverTxFail).
Proof.
  assert (forall res err e, snd (after_select true res err) = Some e ->
                            code e <> CodeDeliverTxFail) as Hnever.
  { clear res err. intros res err e. destruct err as [e0 |]; [intros [= <-]; discriminate |].
    destruct res as [r | rc |]; try (intros [= <-]; discriminate).
    classify.
    destruct (retrieveCodeFromBlockChainCode (Code r) =? InvalidSeqErrCode);
      [intros [= <-]; discriminate |].
    destruct (Code r =? 0); cbn [negb snd]; [discriminate |].
    intros [= <-]. discriminate. }
  split; [apply Hnever | split].
  - destruct res as [r | rc |]; [| right; right; left; reflexivity ..].
    classify.
    destruct (retrieveCodeFromBlockChainCode (Code r) =? InvalidSeqErrCode).
    + left. now exists (Code r), (Log r).
    + destruct (Code r =? 0); cbn [negb].
      * right; right; right. exists (Hash r).
        now rewrite ToUpper_EncodeToString.
      * right; left. now exists (Code r), (Log r).
  - intros sel m privKeyHex seq memo log e. rewrite broadcastTransaction_run.
    destruct sel as [| ctxErr]; cbn [fst]; [apply Hnever |].
    intros [= <-]. discriminate.
Qed.

End Pipeline.

Lemma cancellation_yields_timeout_witness :
  exists s',
    broadcast.caller_step (H := fixture.node)
      (broadcast.donate_msg "alice" "bob" "1" "post" "app" "")
      false
      (broadcast.started (Some (ErrorString "context deadline exceeded"))) s'.
Proof.
  destruct (cancellation_yields_timeout (H := fixture.node)
              (broadcast.donate_msg "alice" "bob" "1" "post" "app" "") false
              (broadcast.started (Some (ErrorString "context deadline exceeded")))
              (ErrorString "context deadline exceeded")
              eq_refl eq_refl eq_refl) as [Hfree _].
  exact Hfree.
Defined.

(** C4 as stated fails: the context is cancelled while the goroutine is
    still inside the pipeline, the goroutine then finishes before the
    caller has left the [select], and the caller leaves through
    [finishChan] with the commit hash. *)
Lemma cancelled_call_can_return_a_response :
  let s0 := broadcast.started None in
  let s1 := {| broadcast.worker := broadcast.Running;
               broadcast.res_var := broadcast.DynOther;
               broadcast.err_var := None;
               broadcast.cancelled := Some samples.deadline;
               broadcast.caller := broadcast.Selecting |} in
  let s2 := {| broadcast.worker := broadcast.Sending;
               broadcast.res_var := fst (fixture.accept false);
               broadcast.err_var := None;
               broadcast.cancelled := Some samples.deadline;
               broadcast.caller := broadcast.Selecting |} in
  let s3 := {| broadcast.worker := broadcast.Exited;
               broadcast.res_var := fst (fixture.accept false);
               broadcast.err_var := None;
               broadcast.cancelled := Some samples.deadline;
               broadcast.caller :=
                 broadcast.Returned (Some {| CommitHash := "AB12" |}, None) |} in
  broadcast.env_step s0 s1
  /\ broadcast.cancelled s1 = Some samples.deadline
  /\ broadcast.worker s1 = broadcast.Running
  /\ broadcast.env_step s1 s2
  /\ broadcast.caller_step (H := fixture.node) samples.tip false s2 s3
  /\ broadcast.caller s3 = broadcast.Returned (Some {| CommitHash := "AB12" |}, None).
Proof.
  intros s0 s1 s2 s3.
  split; [exact (broadcast.env_cancel s0 samples.deadline eq_refl) |].
  split; [reflexivity |]. split; [reflexivity |].
  split; [exact (broadcast.env_complete s1 (fst (fixture.accept false)) None
                   eq_refl) |].
  split; [| reflexivity].
  exact (broadcast.recv_finish (H := fixture.node) samples.tip false s2
           eq_refl eq_refl).
Qed.

(** ** The message builders *)

Section Builders.
Import broadcast.
Context `{Transport}.

Lemma fail_key_run (text : string) (err : error) (log : History) :
  fail_key text err log
  = ((None, Some {| code := CodeFailedToGetPubKeyFromHex; msg := text;
                    cause := Some err; blockChainCode := 0;
                    blockChainLog := "" |}), log).
Proof. reflexivity. Qed.

(** Parse one more key: either it is the one that stops the call, or it
    is not a bad key and the search goes on. *)
Ltac parse_key k :=
  let e := fresh "e" in
  let Hk := fresh "Hk" in
  destruct (GetPubKeyFromHex k) as [? [e |]] eqn:Hk;
  [ exists k, e; eexists; split; [repeat constructor |];
    split; [now rewrite Hk | apply fail_key_run]
  | ].

(** C8.  When one of the hex public keys given to [Register], [Recover],
    [ValidatorDeposit] or [RevokePermission] does not parse, the call
    returns a nil response and a [FailedToGetPubKeyFromHex] error whose
    cause is the parse error of such a key, and no goroutine is started:
    nothing is handed to the transport to sign or submit. *)
Theorem bad_public_key_stops_the_call (ctx : Select) (c : keyed.Call) (log : History) :
  (exists k, k ∈ keyed.public_keys c /\ snd (GetPubKeyFromHex k) <> None) ->
  exists k e text,
    k ∈ keyed.public_keys c
    /\ snd (GetPubKeyFromHex k) = Some e
    /\ keyed.run ctx c log
       = ((None, Some {| code := CodeFailedToGetPubKeyFromHex; msg := text;
                         cause := Some e; blockChainCode := 0;
                         blockChainLog := "" |}), log).
Proof.
  intros (k0 & Hin & Hbad).
  destruct c as [referrer fee user reset tx app priv seq
                | user reset tx app priv seq
                | user deposit val link priv seq
                | user pub priv seq];
    cbn [keyed.run keyed.public_keys] in *;
    unfold Register, Recover, ValidatorDeposit, RevokePermission.
  - parse_key reset. parse_key tx. parse_key app.
    exfalso. apply Hbad.
    repeat (apply elem_of_cons in Hin as [-> | Hin]; [now rewrite ?Hk, ?Hk0, ?Hk1 |]).
    now apply elem_of_nil in Hin.
  - parse_key reset. parse_key tx. parse_key app.
    exfalso. apply Hbad.
    repeat (apply elem_of_cons in Hin as [-> | Hin]; [now rewrite ?Hk, ?Hk0, ?Hk1 |]).
    now apply elem_of_nil in Hin.
  - parse_key val.
    exfalso. apply Hbad.
    repeat (apply elem_of_cons in Hin as [-> | Hin]; [now rewrite ?Hk |]).
    now apply elem_of_nil in Hin.
  - parse_key pub.
    exfalso. apply Hbad.
    repeat (apply elem_of_cons in Hin as [-> | Hin]; [now rewrite ?Hk |]).
    now apply elem_of_nil in Hin.
Qed.


(** A map with at most one entry can be yielded in one order only. *)
Lemma range_order_unique (links : gmap string string)
    (o1 o2 : list (string * string)) :
  (size links <= 1)%nat -> range_order links o1 -> range_order links o2 -> o1 = o2.
Proof.
  unfold range_order. intros Hsize H1 H2.
  rewrite <- length_map_to_list in Hsize.
  destruct (map_to_list links) as [| kv [| kv' rest]].
  - apply Permutation_nil_r in H1, H2. congruence.
  - symmetry in H1, H2.
    apply Permutation_length_1_inv in H1, H2. congruence.
  - cbn in Hsize. lia.
Qed.

(** The canonical order of links is a total order. *)
#[local] Instance link_le_total : Total encoding.link_le.
Proof.
  intros x y. unfold encoding.link_le.
  destruct (decide (Identifier x = Identifier y)) as [Heq | Hne].
  - rewrite decide_True by now symmetry. apply (total String.le).
  - rewrite decide_False by (intros Heq; now apply Hne). apply (total String.le).
Qed.

#[local] Instance link_le_antisymm : AntiSymm (=) encoding.link_le.
Proof.
  intros [i1 u1] [i2 u2]. unfold encoding.link_le. cbn [Identifier URL].
  destruct (decide (i1 = i2)) as [-> | Hne].
  - rewrite decide_True by reflexivity. intros H1 H2.
    f_equal. now apply (anti_symm String.le).
  - rewrite decide_False by (intros Heq; now apply Hne). intros H1 H2.
    destruct Hne. now apply (anti_symm String.le).
Qed.

#[local] Instance link_le_transitive : Transitive encoding.link_le.
Proof.
  intros [i1 u1] [i2 u2] [i3 u3]. unfold encoding.link_le. cbn [Identifier URL].
  repeat case_decide; subst; try congruence; intros Ha Hb;
    try (now transitivity u2); try assumption.
  - exfalso. now apply (anti_symm String.le) in Ha.
  - now transitivity i2.
Qed.


Lemma canonical_keeps (l : list IDToURLMapping) : encoding.canonical l ≡ₚ l.
Proof. apply merge_sort_Permutation. Qed.



End Builders.

Lemma bad_public_key_stops_the_call_witness :
  exists k e text,
    k ∈ keyed.public_keys (keyed.CallRevokePermission "alice" "" "priv" 3)
    /\ snd (broadcast.GetPubKeyFromHex (Transport := fixture.node) k) = Some e
    /\ keyed.run (H := fixture.node) broadcast.RecvFinish
         (keyed.CallRevokePermission "alice" "" "priv" 3) []
       = ((None, Some {| code := CodeFailedToGetPubKeyFromHex; msg := text;
                         cause := Some e; blockChainCode := 0;
                         blockChainLog := "" |}), []).
Proof.
  apply (bad_public_key_stops_the_call (H := fixture.node)).
  exists "". split; [repeat constructor | vm_compute; discriminate].
Defined.


(** The canonical order loses no link: posts that differ in a link differ
    in their bytes. *)
Example sign_bytes_tell_links_apart :
  fst (encoding.EncodeSignMsg
         (broadcast.create_post_msg "alice" "p1" "title" "text" "" "" "" "" "0"
            (broadcast.build_links [("a", "x"); ("b", "y")])) "lino" 7)
  <> fst (encoding.EncodeSignMsg
            (broadcast.create_post_msg "alice" "p1" "title" "text" "" "" "" "" "0"
               (broadcast.build_links [("a", "x"); ("b", "z")])) "lino" 7).
Proof. vm_compute. discriminate. Qed.


(** ** The transport of core.go *)

Section Core.
Import transport.

Lemma pretty_N_char_digit (x : N) : is_digit (pretty_N_char x) = true.
Proof. unfold pretty_N_char. now repeat case_match. Qed.

Lemma pretty_N_go_digits (x : N) (s : string) :
  all_chars is_digit s = true -> all_chars is_digit (pretty_N_go x s) = true.
Proof.
  revert s. induction (N.lt_wf_0 x) as [x _ IH]. intros s Hs.
  destruct (decide (x = 0)) as [-> | Hx]; [now rewrite pretty_N_go_0 |].
  rewrite pretty_N_go_step by lia. apply IH.
  - apply N.div_lt; lia.
  - cbn [all_chars]. now rewrite pretty_N_char_digit, Hs.
Qed.

Lemma fmt_d_digits (n : N) : all_chars is_digit (fmt_d n) = true.
Proof.
  unfold fmt_d, pretty, pretty_N. case_decide; [reflexivity |].
  now apply pretty_N_go_digits.
Qed.

(** A number closed by a parenthesis can be read back: the digits end at
    the first character that is not one. *)
Lemma digits_then_paren (d1 d2 r1 r2 : string) :
  all_chars is_digit d1 = true -> all_chars is_digit d2 = true ->
  d1 +:+ String ")" r1 = d2 +:+ String ")" r2 -> d1 = d2 /\ r1 = r2.
Proof.
  revert d2. induction d1 as [| c d1 IH]; intros [| c' d2] H1 H2 Heq;
    cbn [String.append all_chars] in *.
  - now injection Heq.
  - injection Heq as <- _. discriminate H2.
  - injection Heq as -> _. discriminate H1.
  - injection Heq as <- Heq.
    apply andb_prop in H1 as [_ H1]. apply andb_prop in H2 as [_ H2].
    destruct (IH d2 H1 H2 Heq) as [-> ->]. now split.
Qed.

(** The text of a failed query names the code and the log it was made
    from, and no others. *)
Lemma query_failed_inj (c1 c2 : N) (l1 l2 : string) :
  query_failed c1 l1 = query_failed c2 l2 -> c1 = c2 /\ l1 = l2.
Proof.
  unfold query_failed. intros [= Heq].
  apply digits_then_paren in Heq as [Hc Hl]; try apply fmt_d_digits.
  split; [now apply (inj pretty) | now injection Hl].
Qed.

Lemma Query_connected (node : Client) (chain url : string) (key : list byte)
    (storeName : string) (w : Wire) :
  Query {| chainId := chain; nodeUrl := url; client := Some node |} key storeName w
  = (match ABCIQuery_reply node w ("/" +:+ storeName +:+ "/key") key with
     | Failed _ err => ([], Some err)
     | Replied result =>
         if rq_Code (Response result) =? 0
         then (rq_Value (Response result), None)
         else ([], Some (query_failed (rq_Code (Response result))
                           (rq_Log (Response result))))
     end,
     w ++ [RpcABCIQuery ("/" +:+ storeName +:+ "/key") key]).
Proof.
  unfold Query, GetNode, bind, ABCIQuery, call, ret. cbn [client].
  destruct (ABCIQuery_reply node w _ key) as [partial err | result];
    [reflexivity |].
  now destruct (rq_Code (Response result) =? 0).
Qed.

(** C6.  When the node answers a point query, code 0 returns the value
    bytes of the answer, whatever they are, and no error; any other code
    returns no bytes and the error [Query failed: (<code>) <log>], a text
    from which exactly that code and that log can be read back. *)
Theorem query_answer_by_code (node : Client) (chain url : string) (key : list byte)
    (storeName : string) (w : Wire) (resp : ResponseQuery) :
  ABCIQuery_reply node w ("/" +:+ storeName +:+ "/key") key
  = Replied {| Response := resp |} ->
  let t := {| chainId := chain; nodeUrl := url; client := Some node |} in
  (rq_Code resp = 0 -> fst (Query t key storeName w) = (rq_Value resp, None))
  /\ (rq_Code resp <> 0 ->
      fst (Query t key storeName w)
      = ([], Some (ErrorString ("Query failed: (" +:+ fmt_d (rq_Code resp)
                                  +:+ ") " +:+ rq_Log resp))))
  /\ (forall code log,
        query_failed code log = query_failed (rq_Code resp) (rq_Log resp) ->
        code = rq_Code resp /\ log = rq_Log resp).
Proof.
  intros Hreply t. unfold t. rewrite Query_connected, Hreply.
  cbn [fst Response]. split; [| split].
  - intros ->. reflexivity.
  - intros Hcode. apply N.eqb_neq in Hcode. now rewrite Hcode.
  - intros code log. apply query_failed_inj.
Qed.

(** C7.  On a transport without a node (a nil client) a query and a
    broadcast both return the error [Must define node URI] and nothing
    else, and nothing is sent: the wire is as it was.  The same holds for
    [SignBuildBroadcast] whenever its encoders do not panic. *)
Theorem no_node_no_request (chain url : string) (w : Wire) :
  let t := {| chainId := chain; nodeUrl := url; client := None |} in
  let notConnected := ErrorString "Must define node URI" in
  (forall key storeName, Query t key storeName w = (([], Some notConnected), w))
  /\ (forall tx, BroadcastTx t tx w = ((None, Some notConnected), w))
  /\ (forall (codec : Codec) msg privKey seq,
        snd (SignBuildBroadcast t msg privKey seq w) = w
        /\ forall r, fst (SignBuildBroadcast t msg privKey seq w) = Returns r ->
                     r = (None, Some notConnected)).
Proof.
  intros t notConnected. split; [reflexivity | split; [reflexivity |]].
  intros codec m privKey seq. unfold SignBuildBroadcast.
  destruct (EncodeSignMsg m (chainId t) seq) as [signMsgBytes [e |]];
    [split; [reflexivity | discriminate] |].
  destruct (EncodeTx m _ _ seq) as [txBytes [e |]];
    [split; [reflexivity | discriminate] |].
  split; [reflexivity |]. now intros r [= <-].
Qed.

End Core.

Lemma query_answer_by_code_witness :
  fst (transport.Query
         {| transport.chainId := "lino"; transport.nodeUrl := "localhost:46657";
            transport.client := Some fixture.client |}
         (fixture.bytes "alice") "account" [])
  = ([], Some (ErrorString "Query failed: (7) unknown store")).
Proof.
  destruct (query_answer_by_code fixture.client "lino" "localhost:46657"
              (fixture.bytes "alice") "account" []
              {| rq_Code := 7; rq_Value := []; rq_Log := "unknown store" |}
              eq_refl) as (_ & Hbad & _).
  rewrite Hbad; [reflexivity | discriminate].
Defined.

(** ** The range-scan aggregates of post.go *)

Section Aggregates.
Import query.
Context `{Transport} `{Keys}.
Context `{!Unmarshal PostInfo} `{!Unmarshal PostMeta}.

Lemma posts_loop_step (KV : KV) (rest : list query.KV) (m : gmap string Post)
    (w : list Lookup) :
  posts_loop (KV :: rest) m w
  = match entry_post KV w with
    | (Err err, w') => (Err err, w')
    | (Ok post, w') =>
        posts_loop rest (<[getSubstringAfterSubstore (Key KV) := post]> m) w'
    end.
Proof.
  cbn [posts_loop]. unfold entry_post.
  destruct (UnmarshalJSON (Value KV)) as [postInfo [err |]]; [reflexivity |].
  unfold bind. destruct (GetPostMeta _ _ w) as [[pm | err] w']; reflexivity.
Qed.

(** An entry fails when it does not decode, or when it decodes and the
    point lookup of its metadata fails. *)
Lemma entry_post_fails (KV : KV) (w : list Lookup) (err : error) :
  snd (UnmarshalJSON (A := PostInfo) (Value KV)) = Some err
  \/ (snd (UnmarshalJSON (A := PostInfo) (Value KV)) = None
      /\ fst (GetPostMeta (pi_Author (fst (UnmarshalJSON (Value KV))))
                (pi_PostID (fst (UnmarshalJSON (Value KV)))) w) = Err err) ->
  fst (entry_post KV w) = Err err.
Proof.
  unfold entry_post.
  destruct (UnmarshalJSON (Value KV)) as [postInfo [e |]]; cbn [fst snd].
  - intros [[= ->] | [[=] _]]. reflexivity.
  - intros [[=] | [_ Hmeta]]. revert Hmeta. unfold bind.
    destruct (GetPostMeta _ _ w) as [[pm | e] w']; unfold ret; cbn [fst];
      [discriminate | congruence].
Qed.

(** The first entry that fails ends the loop with its error, whatever
    was gathered before and whatever follows. *)
Lemma posts_loop_first_failure (pre post : list KV) (KV : KV)
    (m m1 : gmap string Post) (w w1 : list Lookup) (err : error) :
  posts_loop pre m w = (Ok m1, w1) ->
  fst (entry_post KV w1) = Err err ->
  fst (posts_loop (pre ++ KV :: post) m w) = Err err.
Proof.
  revert m w. induction pre as [| kv0 pre IH]; intros m w Hpre Hfail.
  - cbn in Hpre. injection Hpre as <- <-.
    cbn [app]. rewrite posts_loop_step.
    destruct (entry_post KV w) as [[p | e] w']; cbn [fst] in *;
      [discriminate | congruence].
  - cbn [app]. rewrite posts_loop_step in *.
    destruct (entry_post kv0 w) as [[p | e] w']; [| discriminate].
    now apply IH.
Qed.

(** An entry that does not decode, anywhere in the scan, leaves no map. *)
Lemma posts_loop_undecodable (resKVs : list KV) (m : gmap string Post)
    (w : list Lookup) :
  (exists KV, KV ∈ resKVs /\ snd (UnmarshalJSON (A := PostInfo) (Value KV)) <> None) ->
  exists err, fst (posts_loop resKVs m w) = Err err.
Proof.
  revert m w. induction resKVs as [| kv0 rest IH]; intros m w (KV & Hin & Hbad).
  - now apply elem_of_nil in Hin.
  - rewrite posts_loop_step.
    destruct (entry_post kv0 w) as [[p | e] w'] eqn:Hentry; [| now exists e].
    apply elem_of_cons in Hin as [-> | Hin]; [| apply IH; eauto].
    exfalso. destruct (snd (UnmarshalJSON (Value kv0))) as [e |] eqn:Hdec;
      [| now apply Hbad].
    assert (fst (entry_post kv0 w) = Err e) as Hfail
      by (apply entry_post_fails; now left).
    rewrite Hentry in Hfail. discriminate Hfail.
Qed.

Lemma decode_loop_undecodable {A} `{!Unmarshal A} (resKVs : list KV)
    (m : gmap string A) :
  (exists KV, KV ∈ resKVs /\ snd (UnmarshalJSON (A := A) (Value KV)) <> None) ->
  exists KV err,
    KV ∈ resKVs /\ snd (UnmarshalJSON (A := A) (Value KV)) = Some err
    /\ decode_loop resKVs m = Err err.
Proof.
  revert m. induction resKVs as [| kv0 rest IH]; intros m (KV & Hin & Hbad).
  - now apply elem_of_nil in Hin.
  - cbn [decode_loop].
    destruct (UnmarshalJSON (Value kv0)) as [record [e |]] eqn:Hdec.
    + exists kv0, e. rewrite Hdec. repeat split. constructor.
    + apply elem_of_cons in Hin as [-> | Hin];
        [rewrite Hdec in Hbad; now destruct Hbad |].
      destruct (IH (<[getSubstringAfterKeySeparator (Key kv0) := record]> m))
        as (kv & e & Hkv & He & Hloop); [eauto |].
      exists kv, e. repeat split; [now constructor | exact He | exact Hloop].
Qed.

Lemma range_query_undecodable {A} `{!Unmarshal A} (subspace : list byte)
    (resKVs : list KV) (w : list Lookup) :
  QuerySubspace_reply w subspace PostKVStoreKey = (resKVs, None) ->
  (exists KV, KV ∈ resKVs /\ snd (UnmarshalJSON (A := A) (Value KV)) <> None) ->
  exists KV err,
    KV ∈ resKVs /\ snd (UnmarshalJSON (A := A) (Value KV)) = Some err
    /\ fst (range_query (A := A) subspace w) = Err err.
Proof.
  intros Hscan Hbad. unfold range_query, bind, QuerySubspace, call, ret.
  rewrite Hscan. cbn [fst snd]. now apply decode_loop_undecodable.
Qed.

(** C5.  Let a range scan return [resKVs].  (1) [GetUserAllPosts] returns
    no map and an error as soon as one entry does not decode; and when the
    entries before some entry went through and that entry does not decode,
    or decodes but the point lookup of its metadata fails, the error
    returned is that one.  (2) [GetPostAllComments], [GetPostAllViews],
    [GetPostAllDonations] and [GetPostAllReportOrUpvotes] return no map
    and the decode error of an entry as soon as one entry does not
    decode. *)
Theorem range_scan_fails_fast {A} `{!Unmarshal A} (resKVs : list KV)
    (w : list Lookup) :
  (forall username,
      QuerySubspace_reply w (getUserPostInfoPrefix username ++ PermLinkSeparator)
        PostKVStoreKey = (resKVs, None) ->
      ((exists KV, KV ∈ resKVs
                   /\ snd (UnmarshalJSON (A := PostInfo) (Value KV)) <> None) ->
       exists err, fst (GetUserAllPosts username w) = Err err)
      /\ (forall pre KV post m1 w1 err,
            resKVs = pre ++ KV :: post ->
            posts_loop pre ∅
              (w ++ [CallQuerySubspace
                       (getUserPostInfoPrefix username ++ PermLinkSeparator)
                       PostKVStoreKey]) = (Ok m1, w1) ->
            snd (UnmarshalJSON (A := PostInfo) (Value KV)) = Some err
            \/ (snd (UnmarshalJSON (A := PostInfo) (Value KV)) = None
                /\ fst (GetPostMeta
                          (pi_Author (fst (UnmarshalJSON (Value KV))))
                          (pi_PostID (fst (UnmarshalJSON (Value KV)))) w1)
                   = Err err) ->
            fst (GetUserAllPosts username w) = Err err))
  /\ scan.fails_fast (A := A) GetPostAllComments getPostCommentPrefix resKVs w
  /\ scan.fails_fast (A := A) GetPostAllViews getPostViewPrefix resKVs w
  /\ scan.fails_fast (A := A) GetPostAllDonations getPostDonationsPrefix resKVs w
  /\ scan.fails_fast (A := A) GetPostAllReportOrUpvotes
       getPostReportOrUpvotePrefix resKVs w.
Proof.
  split.
  - intros username Hscan.
    assert (forall out, fst (posts_loop resKVs ∅
                (w ++ [CallQuerySubspace
                         (getUserPostInfoPrefix username ++ PermLinkSeparator)
                         PostKVStoreKey])) = out ->
              fst (GetUserAllPosts username w) = out) as Hrun.
    { intros out <-. unfold GetUserAllPosts, bind, QuerySubspace, call.
      now rewrite Hscan. }
    split.
    + intros Hbad.
      destruct (posts_loop_undecodable resKVs ∅
                  (w ++ [CallQuerySubspace
                           (getUserPostInfoPrefix username ++ PermLinkSeparator)
                           PostKVStoreKey]) Hbad) as [err Herr].
      exists err. now apply Hrun.
    + intros pre KV post m1 w1 err -> Hpre Hfail. apply Hrun.
      apply (posts_loop_first_failure pre post KV ∅ m1 _ w1); [exact Hpre |].
      now apply entry_post_fails.
  - repeat split; intros author postID Hscan Hbad;
      now apply range_query_undecodable.
Qed.

End Aggregates.

Lemma range_scan_fails_fast_witness :
  fst (query.GetUserAllPosts (H := fixture.store) (H0 := fixture.keys)
         (H1 := fixture.unmarshal_info) (H2 := fixture.unmarshal_meta) "bob" [])
  = Err fixture.missing.
Proof.
  eapply (proj2 (proj1 (range_scan_fails_fast (H := fixture.store)
                          (H0 := fixture.keys)
                          (Unmarshal0 := fixture.unmarshal_info)
                          (Unmarshal1 := fixture.unmarshal_meta)
                          (A := string) (Unmarshal2 := fixture.unmarshal_comment)
                          _ []) "bob" eq_refl)
            [ {| query.Key := fixture.bytes "k1"; query.Value := fixture.bytes "alice" |} ]
            {| query.Key := fixture.bytes "k2"; query.Value := fixture.bytes "bob" |}
            []).
  - reflexivity.
  - vm_compute. reflexivity.
  - right. split; vm_compute; reflexivity.
Defined.

(** * Further properties *)

(** ** Outcomes of a broadcast *)

Section Outcomes.
Import broadcast.
Context `{Transport}.

(** The interpreter as a table: pipeline error, shape of the response
    for the mode, stale-sequence test, then the codes. *)
Lemma after_select_table (checkTxOnly : bool) (res : Dyn) (err : option error) :
  after_select checkTxOnly res err
  = match err with
    | Some e => (None, Some (FailedToBroadcast (Go.Error e)))
    | None =>
        match checkTxOnly, res with
        | true, DynResultBroadcastTx r =>
            if retrieveCodeFromBlockChainCode (Code r) =? InvalidSeqErrCode
            then spec.SequenceConflict (Code r) (Log r)
            else spec.confirm_only r
        | false, DynResultBroadcastTxCommit r =>
            if retrieveCodeFromBlockChainCode (tx_Code (CheckTx r))
               =? InvalidSeqErrCode
            then spec.SequenceConflict (tx_Code (CheckTx r)) (tx_Log (CheckTx r))
            else spec.full_commit r
        | _, _ => spec.ParseFailure
        end
    end.
Proof.
  destruct err as [e |]; [reflexivity |].
  destruct checkTxOnly, res as [r | r |]; try reflexivity; classify.
  - destruct (_ =? InvalidSeqErrCode); [reflexivity |].
    destruct (Code r =? 0); [| reflexivity].
    cbn [negb]. now rewrite ToUpper_EncodeToString.
  - destruct (_ =? InvalidSeqErrCode); [reflexivity |].
    destruct (tx_Code (CheckTx r) =? 0); [| reflexivity].
    destruct (tx_Code (DeliverTx r) =? 0); [| reflexivity].
    cbn [negb]. now rewrite ToUpper_EncodeToString.
Qed.

Lemma zero_is_not_stale : (retrieveCodeFromBlockChainCode 0 =? InvalidSeqErrCode) = false.
Proof. reflexivity. Qed.

(** A builder either stops at a hex public key that does not parse, or
    parses them all and is one call of [broadcastTransaction] with the
    signer's key, the sequence number, an empty memo and its mode. *)
Lemma run_cases (ctx : Select) (c : calls.Call) (log : History) :
  (exists k e text,
      k ∈ calls.public_keys c /\ snd (GetPubKeyFromHex k) = Some e
      /\ calls.run ctx c log
         = ((None, Some (AddCause (FailedToGetPubKeyFromHex text) e)), log))
  \/ ((forall k, k ∈ calls.public_keys c -> snd (GetPubKeyFromHex k) = None)
      /\ exists m,
           calls.run ctx c log
           = broadcastTransaction ctx m (calls.signer c) (calls.sequence c) ""
               (calls.sync c) log).
Proof.
  assert (forall keys : list string,
             (forall k, k ∈ keys -> snd (GetPubKeyFromHex k) = None)
             <-> Forall (fun k => snd (GetPubKeyFromHex k) = None) keys) as Hall
    by (intros keys; symmetry; apply Forall_forall).
  destruct c as [[referrer fee user reset tx app priv seq
                 | user reset tx app priv seq
                 | user deposit val link priv seq
                 | user pub priv seq]
                | sender receiver amount memo priv seq
                | [|] order a p t c pa pp sa sp rate links priv seq
                | [|] username author amount postID fromApp memo priv seq];
    cbn [calls.run keyed.run calls.public_keys keyed.public_keys calls.signer
         calls.sequence calls.sync];
    unfold Register, Recover, ValidatorDeposit, RevokePermission, Transfer,
      CreatePost, CreatePostSync, Donate, DonateSync;
    try (right; split; [intros k Hk; now apply elem_of_nil in Hk | eauto]).
  - destruct (GetPubKeyFromHex reset) as [k1 [e |]] eqn:H1;
      [left; exists reset, e; eexists; rewrite H1;
       repeat split; repeat constructor |].
    destruct (GetPubKeyFromHex tx) as [k2 [e |]] eqn:H2;
      [left; exists tx, e; eexists; rewrite H2;
       repeat split; repeat constructor |].
    destruct (GetPubKeyFromHex app) as [k3 [e |]] eqn:H3;
      [left; exists app, e; eexists; rewrite H3;
       repeat split; repeat constructor |].
    right. split; [| eauto]. apply Hall.
    repeat constructor; [now rewrite H1 | now rewrite H2 | now rewrite H3].
  - destruct (GetPubKeyFromHex reset) as [k1 [e |]] eqn:H1;
      [left; exists reset, e; eexists; rewrite H1;
       repeat split; repeat constructor |].
    destruct (GetPubKeyFromHex tx) as [k2 [e |]] eqn:H2;
      [left; exists tx, e; eexists; rewrite H2;
       repeat split; repeat constructor |].
    destruct (GetPubKeyFromHex app) as [k3 [e |]] eqn:H3;
      [left; exists app, e; eexists; rewrite H3;
       repeat split; repeat constructor |].
    right. split; [| eauto]. apply Hall.
    repeat constructor; [now rewrite H1 | now rewrite H2 | now rewrite H3].
  - destruct (GetPubKeyFromHex val) as [k1 [e |]] eqn:H1;
      [left; exists val, e; eexists; rewrite H1;
       repeat split; repeat constructor |].
    right. split; [| eauto]. apply Hall. repeat constructor. now rewrite H1.
  - destruct (GetPubKeyFromHex pub) as [k1 [e |]] eqn:H1;
      [left; exists pub, e; eexists; rewrite H1;
       repeat split; repeat constructor |].
    right. split; [| eauto]. apply Hall. repeat constructor. now rewrite H1.
Qed.

End Outcomes.

Section OutcomeTheorems.
Import broadcast.
Context `{Transport}.

(** X1.  [broadcastTransaction] returns a response exactly when the
    [select] was left through the goroutine, the pipeline reported no
    error, the response has the shape of the mode and its pending-pool
    code (and, in full-commit mode, its execution code) is zero; the
    response then holds the hash in uppercase hex. *)
Theorem response_returned_exactly_when (sel : Select) (m : Msg)
    (privKeyHex : string) (seq : Z) (memo : string) (checkTxOnly : bool)
    (log : History) (resp : BroadcastResponse) :
  let r := SignBuildBroadcast log m privKeyHex seq memo checkTxOnly in
  fst (fst (broadcastTransaction sel m privKeyHex seq memo checkTxOnly log))
  = Some resp
  <-> sel = RecvFinish /\ snd r = None
      /\ ((checkTxOnly = true
           /\ exists rt, fst r = DynResultBroadcastTx rt /\ Code rt = 0
                         /\ resp = {| CommitHash := spec.upper_hex (Hash rt) |})
          \/ (checkTxOnly = false
              /\ exists rc, fst r = DynResultBroadcastTxCommit rc
                            /\ tx_Code (CheckTx rc) = 0
                            /\ tx_Code (DeliverTx rc) = 0
                            /\ resp = {| CommitHash :=
                                           spec.upper_hex (commit_Hash rc) |})).
Proof.
  intros r. rewrite broadcastTransaction_run. fold r.
  destruct r as [res err]. cbn [fst snd]. split.
  - destruct sel as [| ctxErr]; [| discriminate].
    rewrite after_select_table.
    destruct err as [e |]; [discriminate |].
    intros Hresp. split; [reflexivity | split; [reflexivity |]].
    destruct checkTxOnly, res as [rt | rc |]; try discriminate Hresp.
    + left. split; [reflexivity |]. exists rt. revert Hresp.
      destruct (_ =? InvalidSeqErrCode); [discriminate |].
      unfold spec.confirm_only.
      destruct (Code rt =? 0) eqn:Hcode; [| discriminate].
      apply N.eqb_eq in Hcode. now intros [= <-].
    + right. split; [reflexivity |]. exists rc. revert Hresp.
      destruct (_ =? InvalidSeqErrCode); [discriminate |].
      unfold spec.full_commit.
      destruct (tx_Code (CheckTx rc) =? 0) eqn:Hcheck; [| discriminate].
      destruct (tx_Code (DeliverTx rc) =? 0) eqn:Hdeliver; [| discriminate].
      apply N.eqb_eq in Hcheck, Hdeliver. now intros [= <-].
  - intros (-> & -> & [(-> & rt & -> & Hcode & ->)
                      | (-> & rc & -> & Hcheck & Hdeliver & ->)]);
      rewrite after_select_table.
    + rewrite Hcode, zero_is_not_stale. unfold spec.confirm_only.
      now rewrite Hcode.
    + rewrite Hcheck, zero_is_not_stale. unfold spec.full_commit.
      now rewrite Hcheck, Hdeliver.
Qed.

(** Of the two results of the interpreter exactly one is nil. *)
Lemma after_select_one_of (checkTxOnly : bool) (res : Dyn) (err : option error) :
  (exists resp, after_select checkTxOnly res err = (Some resp, None))
  \/ (exists e, after_select checkTxOnly res err = (None, Some e)).
Proof.
  rewrite after_select_table. destruct err as [e |]; [right; eauto |].
  destruct checkTxOnly, res as [r | r |]; try (right; eexists; reflexivity).
  - destruct (_ =? InvalidSeqErrCode); [right; eexists; reflexivity |].
    unfold spec.confirm_only.
    destruct (Code r =? 0); [left | right]; eexists; reflexivity.
  - destruct (_ =? InvalidSeqErrCode); [right; eexists; reflexivity |].
    unfold spec.full_commit.
    destruct (tx_Code (CheckTx r) =? 0); [| right; eexists; reflexivity].
    destruct (tx_Code (DeliverTx r) =? 0); [left | right]; eexists; reflexivity.
Qed.

(** X2.  Every builder returns either a response and a nil error, or a
    nil response and an error: never both, never neither. *)
Theorem builder_returns_response_or_error (ctx : Select) (c : calls.Call)
    (log : History) :
  (exists resp, fst (calls.run ctx c log) = (Some resp, None))
  \/ (exists e, fst (calls.run ctx c log) = (None, Some e)).
Proof.
  destruct (run_cases ctx c log) as [(k & e & text & _ & _ & ->) | (_ & m & ->)];
    [right; eauto |].
  rewrite broadcastTransaction_run. cbn [fst].
  destruct ctx as [| ctxErr]; [apply after_select_one_of | right; eauto].
Qed.

(** X3.  The history of goroutines after a builder call: unchanged when
    a hex public key does not parse; otherwise all keys parse and exactly
    one goroutine was added, for the signer's key and sequence number of
    the call, with an empty memo, in confirm-only mode for the [Sync]
    builders and in full-commit mode for the others. *)
Theorem builder_starts_at_most_one_goroutine (ctx : Select) (c : calls.Call)
    (log : History) :
  ((exists k, k ∈ calls.public_keys c /\ snd (GetPubKeyFromHex k) <> None)
   /\ snd (calls.run ctx c log) = log)
  \/ ((forall k, k ∈ calls.public_keys c -> snd (GetPubKeyFromHex k) = None)
      /\ exists m,
           snd (calls.run ctx c log)
           = log ++ [GoSignBuildBroadcast m (calls.signer c) (calls.sequence c)
                       "" (calls.sync c)]).
Proof.
  destruct (run_cases ctx c log)
    as [(k & e & text & Hin & Hk & ->) | (Hall & m & ->)].
  - left. split; [| reflexivity]. exists k. split; [exact Hin |].
    rewrite Hk. discriminate.
  - right. split; [exact Hall |]. exists m. now rewrite broadcastTransaction_run.
Qed.

(** X4.  What an error returned by a builder carries, kind by kind: a
    [Timeout] has [ctx.Err()] as its cause and no remote code; a
    [FailedToBroadcast] has neither cause nor remote code; an
    [InvalidSequenceNumber] has a remote code whose low byte is 154; a
    [CheckTxFail] has a non-zero remote code whose low byte is not 154; a
    [DeliverTxFail] has a non-zero remote code and comes from a
    full-commit builder only; a [FailedToGetPubKeyFromHex] has the parse
    error of one of the hex public keys as its cause. *)
Theorem builder_error_payload (ctx : Select) (c : calls.Call) (log : History)
    (e : Error) :
  snd (fst (calls.run ctx c log)) = Some e ->
  match code e with
  | CodeTimeout =>
      exists ctxErr, ctx = RecvDone ctxErr /\ cause e = Some ctxErr
                     /\ blockChainCode e = 0 /\ blockChainLog e = ""
  | CodeFailedToBroadcast =>
      ctx = RecvFinish /\ cause e = None /\ blockChainCode e = 0
      /\ blockChainLog e = ""
  | CodeInvalidSequenceNumber =>
      ctx = RecvFinish /\ cause e = None /\ blockChainCode e mod 256 = 154
  | CodeCheckTxFail =>
      ctx = RecvFinish /\ cause e = None /\ blockChainCode e <> 0
      /\ blockChainCode e mod 256 <> 154
  | CodeDeliverTxFail =>
      ctx = RecvFinish /\ cause e = None /\ blockChainCode e <> 0
      /\ calls.sync c = false
  | CodeFailedToGetPubKeyFromHex =>
      exists k, k ∈ calls.public_keys c /\ snd (GetPubKeyFromHex k) = cause e
  end.
Proof.
  destruct (run_cases ctx c log)
    as [(k & e0 & text & Hin & Hk & ->) | (_ & m & ->)].
  - intros [= <-]. cbn [code]. exists k. now split.
  - rewrite broadcastTransaction_run. cbn [fst].
    destruct ctx as [| ctxErr]; [| intros [= <-]; cbn; eauto].
    rewrite after_select_table.
    destruct (snd (SignBuildBroadcast _ _ _ _ _ _)) as [e1 |];
      [intros [= <-]; now cbn |].
    destruct (calls.sync c) eqn:Hsync,
             (fst (SignBuildBroadcast _ _ _ _ _ _)) as [r | r |];
      try (intros [= <-]; now cbn).
    + destruct (_ =? InvalidSeqErrCode) eqn:Hstale.
      * intros [= <-]. cbn. apply N.eqb_eq in Hstale.
        now rewrite mask_is_low_byte in Hstale.
      * unfold spec.confirm_only.
        destruct (Code r =? 0) eqn:Hcode; [discriminate |].
        intros [= <-]. cbn. apply N.eqb_neq in Hstale, Hcode.
        now rewrite mask_is_low_byte in Hstale.
    + destruct (_ =? InvalidSeqErrCode) eqn:Hstale.
      * intros [= <-]. cbn. apply N.eqb_eq in Hstale.
        now rewrite mask_is_low_byte in Hstale.
      * unfold spec.full_commit.
        destruct (tx_Code (CheckTx r) =? 0) eqn:Hcheck.
        -- destruct (tx_Code (DeliverTx r) =? 0) eqn:Hdeliver; [discriminate |].
           intros [= <-]. cbn. apply N.eqb_neq in Hdeliver. now repeat split.
        -- intros [= <-]. cbn. apply N.eqb_neq in Hstale, Hcheck.
           now rewrite mask_is_low_byte in Hstale.
Qed.

End OutcomeTheorems.

Lemma builder_error_payload_witness :
  exists ctxErr,
    broadcast.RecvDone (ErrorString "context canceled") = broadcast.RecvDone ctxErr
    /\ Some (ErrorString "context canceled") = Some ctxErr
    /\ 0 = 0 /\ "" = "".
Proof.
  exact (builder_error_payload (H := fixture.node)
           (broadcast.RecvDone (ErrorString "context canceled"))
           (calls.CallDonate false "alice" "bob" "1" "post" "app" "thanks" "priv" 4)
           [] _ eq_refl).
Defined.

(** ** The commit hash and the masked code *)

Lemma HEXTABLE_inj (a b : N) :
  a < 16 -> b < 16 ->
  at_index spec.HEXTABLE a = at_index spec.HEXTABLE b -> a = b.
Proof.
  intros Ha Hb.
  destruct a as [| p]; [| do 4 (try destruct p as [p | p |])]; try lia;
    (destruct b as [| q]; [| do 4 (try destruct q as [q | q |])]); try lia;
    intros Heq; first [reflexivity | discriminate Heq].
Qed.

Lemma to_N_inj (v1 v2 : byte) : Byte.to_N v1 = Byte.to_N v2 -> v1 = v2.
Proof.
  intros Heq. pose proof (Byte.of_to_N v1) as H1.
  rewrite Heq, Byte.of_to_N in H1. now injection H1.
Qed.

(** X5.  The commit hash has two characters per byte of the hash, all of
    them digits or letters from A to F, and two hashes with the same
    commit hash are the same hash. *)
Theorem commit_hash_identifies_hash (h1 h2 : list byte) :
  String.length (ToUpper (EncodeToString h1)) = (2 * length h1)%nat
  /\ all_chars is_upper_hex (ToUpper (EncodeToString h1)) = true
  /\ (ToUpper (EncodeToString h1) = ToUpper (EncodeToString h2) -> h1 = h2).
Proof.
  rewrite !ToUpper_EncodeToString.
  destruct (upper_hex_chars h1) as [Hchars Hlen].
  split; [exact Hlen | split; [exact Hchars |]].
  clear Hchars Hlen. revert h2.
  induction h1 as [| v1 h1 IH]; intros [| v2 h2]; cbn [spec.upper_hex];
    try discriminate; [reflexivity |].
  intros [= Hhi Hlo Hrest].
  destruct (nibbles_lt_16 v1) as [Hhi1 Hlo1].
  destruct (nibbles_lt_16 v2) as [Hhi2 Hlo2].
  apply HEXTABLE_inj in Hhi, Hlo; try assumption.
  f_equal; [| now apply IH].
  apply to_N_inj.
  rewrite (N.div_mod (Byte.to_N v1) 16), (N.div_mod (Byte.to_N v2) 16) by lia.
  now rewrite Hhi, Hlo.
Qed.

(** X6.  The masked code is the remainder of the code by 256: it is below
    256, a code below 256 is its own mask, masking twice changes nothing,
    and adding a multiple of 256 to a code does not change its mask. *)
Theorem masked_code_is_low_byte (bcCode : N) :
  broadcast.retrieveCodeFromBlockChainCode bcCode = bcCode mod 256
  /\ broadcast.retrieveCodeFromBlockChainCode bcCode < 256
  /\ (bcCode < 256 -> broadcast.retrieveCodeFromBlockChainCode bcCode = bcCode)
  /\ broadcast.retrieveCodeFromBlockChainCode
       (broadcast.retrieveCodeFromBlockChainCode bcCode)
     = broadcast.retrieveCodeFromBlockChainCode bcCode
  /\ (forall high,
        broadcast.retrieveCodeFromBlockChainCode (bcCode + 256 * high)
        = broadcast.retrieveCodeFromBlockChainCode bcCode).
Proof.
  rewrite !mask_is_low_byte. split; [reflexivity |].
  split; [apply N.mod_lt; lia |].
  split; [intros Hlow; now apply N.mod_small |].
  split; [apply N.Div0.mod_mod |].
  intros high. rewrite !mask_is_low_byte.
  now rewrite (N.mul_comm 256 high), N.Div0.mod_add.
Qed.

(** ** The goroutine and the caller, over every interleaving *)

Section Interleavings.
Import broadcast interleaving.
Context `{Transport}.

Lemma race_invariant_step (m : Msg) (checkTxOnly : bool) (s s' : Race) :
  step m checkTxOnly s s' ->
  race_invariant m checkTxOnly s -> race_invariant m checkTxOnly s'.
Proof.
  unfold race_invariant.
  intros [Henv | Hcall].
  - destruct Henv as [s res err Hrun | s ctxErr Hnone]; cbn.
    + destruct (caller s) as [| out]; [discriminate |].
      intros [[Hexit _] | (_ & e & He & ->)]; [congruence |].
      right. split; [discriminate | eauto].
    + destruct (caller s) as [| out]; [trivial |].
      intros [Hdone | (_ & e & He & _)]; [now left | congruence].
  - destruct Hcall as [s Hsel Hsend | s ctxErr Hsel Hctx]; cbn; rewrite Hsel.
    + intros _. now left.
    + intros Hw. right. eauto.
Qed.

Lemma race_invariant_reachable (m : Msg) (checkTxOnly : bool) (s s' : Race) :
  rtc (step m checkTxOnly) s s' ->
  race_invariant m checkTxOnly s -> race_invariant m checkTxOnly s'.
Proof.
  induction 1 as [| s s1 s2 Hstep _ IH]; [trivial |].
  intros Hinv. apply IH. now apply (race_invariant_step m checkTxOnly s).
Qed.

Lemma race_invariant_started (m : Msg) (checkTxOnly : bool) (ctx : option error) :
  race_invariant m checkTxOnly (started ctx).
Proof. unfold race_invariant. cbn. discriminate. Qed.

(** The interpreter never makes a timeout. *)
Lemma after_select_is_no_timeout (m : Msg) (checkTxOnly : bool) (res : Dyn)
    (err : option error) (ctxErr : error) :
  after_select checkTxOnly res err <> timeout m ctxErr.
Proof.
  rewrite after_select_table. unfold timeout.
  destruct err as [e |]; [discriminate |].
  destruct checkTxOnly, res as [r | r |]; try discriminate.
  - destruct (_ =? InvalidSeqErrCode); [discriminate |].
    unfold spec.confirm_only. destruct (Code r =? 0); discriminate.
  - destruct (_ =? InvalidSeqErrCode); [discriminate |].
    unfold spec.full_commit.
    destruct (tx_Code (CheckTx r) =? 0); [| discriminate].
    destruct (tx_Code (DeliverTx r) =? 0); discriminate.
Qed.

(** X7.  Whatever the interleaving of the goroutine, the cancellation and
    the caller, what the caller returns is one of two things: the
    interpretation of the very [res] and [err] the goroutine assigned, the
    goroutine having exited after its send was received; or the timeout
    carrying the error of a context that was in fact cancelled, the
    goroutine not having exited. *)
Theorem race_result_provenance (m : Msg) (checkTxOnly : bool) (ctx : option error)
    (s : Race) (out : Result) :
  rtc (step m checkTxOnly) (started ctx) s ->
  caller s = Returned out ->
  (worker s = Exited /\ out = after_select checkTxOnly (res_var s) (err_var s))
  \/ (worker s <> Exited
      /\ exists ctxErr, cancelled s = Some ctxErr /\ out = timeout m ctxErr).
Proof.
  intros Hrun Hret.
  pose proof (race_invariant_reachable m checkTxOnly _ _ Hrun
                (race_invariant_started m checkTxOnly ctx)) as Hinv.
  unfold race_invariant in Hinv. now rewrite Hret in Hinv.
Qed.

(** X8.  Once the caller has returned through [ctx.Done()], the goroutine
    never exits: it finishes the pipeline at most once and then stays at
    its send on [finishChan], which nobody receives. *)
Theorem abandoned_goroutine_never_exits (m : Msg) (checkTxOnly : bool)
    (ctx : option error) (s s' : Race) (ctxErr : error) :
  rtc (step m checkTxOnly) (started ctx) s ->
  caller s = Returned (timeout m ctxErr) ->
  rtc (step m checkTxOnly) s s' ->
  worker s' <> Exited /\ caller s' = Returned (timeout m ctxErr)
  /\ forall s'', ~ caller_step m checkTxOnly s' s''.
Proof.
  intros Hrun Hret Hlater.
  assert (caller s' = Returned (timeout m ctxErr)) as Hret'
    by now apply (returned_is_final m checkTxOnly s).
  assert (rtc (step m checkTxOnly) (started ctx) s') as Hrun'
    by (transitivity s; assumption).
  pose proof (race_invariant_reachable m checkTxOnly _ _ Hrun'
                (race_invariant_started m checkTxOnly ctx)) as Hinv.
  unfold race_invariant in Hinv. rewrite Hret' in Hinv.
  split; [| split; [exact Hret' |]].
  - destruct Hinv as [[_ Hout] | [Hw _]]; [| exact Hw].
    symmetry in Hout. now apply after_select_is_no_timeout in Hout.
  - intros s'' Hstep. destruct Hstep; congruence.
Qed.

End Interleavings.

Lemma timed_out_reachable :
  rtc (broadcast.step (H := fixture.node) samples.tip false)
    (broadcast.started (Some samples.deadline)) samples.timed_out.
Proof.
  apply rtc_once. right.
  exact (broadcast.recv_done (H := fixture.node) samples.tip false
           (broadcast.started (Some samples.deadline)) samples.deadline
           eq_refl eq_refl).
Qed.

Lemma race_result_provenance_witness :
  (broadcast.worker samples.timed_out = broadcast.Exited
   /\ broadcast.timeout (H := fixture.node) samples.tip samples.deadline
      = broadcast.after_select false (broadcast.res_var samples.timed_out)
          (broadcast.err_var samples.timed_out))
  \/ (broadcast.worker samples.timed_out <> broadcast.Exited
      /\ exists ctxErr,
           broadcast.cancelled samples.timed_out = Some ctxErr
           /\ broadcast.timeout (H := fixture.node) samples.tip samples.deadline
              = broadcast.timeout (H := fixture.node) samples.tip ctxErr).
Proof.
  exact (race_result_provenance (H := fixture.node) samples.tip false
           (Some samples.deadline) samples.timed_out _
           timed_out_reachable eq_refl).
Defined.

Lemma abandoned_goroutine_never_exits_witness :
  broadcast.worker samples.timed_out <> broadcast.Exited
  /\ broadcast.caller samples.timed_out
     = broadcast.Returned
         (broadcast.timeout (H := fixture.node) samples.tip samples.deadline)
  /\ forall s'',
       ~ broadcast.caller_step (H := fixture.node) samples.tip false
           samples.timed_out s''.
Proof.
  exact (abandoned_goroutine_never_exits (H := fixture.node) samples.tip false
           (Some samples.deadline) samples.timed_out samples.timed_out
           samples.deadline timed_out_reachable eq_refl (rtc_refl _ _)).
Defined.

(** ** More on the transport of core.go *)

Section CoreMore.
Import transport.

(** X9.  A broadcast on a connected transport sends the transaction once.
    It returns a nil error exactly when the node replied with a zero
    pending-pool code and a zero execution code; whenever the node
    replied, the result is returned, error or not; and a non-zero
    pending-pool code is the one reported, whatever the execution code. *)
Theorem broadcast_tx_on_connected (node : Client) (chain url : string)
    (tx : list byte) (w : Wire) :
  let t := {| chainId := chain; nodeUrl := url; client := Some node |} in
  snd (BroadcastTx t tx w) = w ++ [RpcBroadcastTxCommit tx]
  /\ (snd (fst (BroadcastTx t tx w)) = None
      <-> exists res, BroadcastTxCommit_reply node w tx = Replied res
                      /\ tx_Code (CheckTx res) = 0 /\ tx_Code (DeliverTx res) = 0)
  /\ (forall res, BroadcastTxCommit_reply node w tx = Replied res ->
        fst (fst (BroadcastTx t tx w)) = Some res
        /\ (tx_Code (CheckTx res) <> 0 ->
            snd (fst (BroadcastTx t tx w)) = Some (checktx_failed (CheckTx res)))
        /\ (tx_Code (CheckTx res) = 0 -> tx_Code (DeliverTx res) <> 0 ->
            snd (fst (BroadcastTx t tx w))
            = Some (delivertx_failed (DeliverTx res))))
  /\ (forall partial err, BroadcastTxCommit_reply node w tx = Failed partial err ->
        fst (BroadcastTx t tx w) = (partial, Some err)).
Proof.
  intros t. unfold t, BroadcastTx, GetNode, bind, BroadcastTxCommit, call, ret.
  cbn [client].
  destruct (BroadcastTxCommit_reply node w tx) as [partial err | res].
  - cbn. split; [reflexivity |]. split; [| split].
    + split; [discriminate | intros (res & [=] & _)].
    + discriminate.
    + now intros p e [= -> ->].
  - cbn [fst snd].
    destruct (tx_Code (CheckTx res) =? 0) eqn:Hcheck;
      [destruct (tx_Code (DeliverTx res) =? 0) eqn:Hdeliver |];
      cbn [negb fst snd].
    + apply N.eqb_eq in Hcheck, Hdeliver.
      split; [reflexivity |].
      split; [split; [intros _; now exists res | reflexivity] |].
      split; [| discriminate].
      intros r [= <-]. split; [reflexivity |]. split; intros; congruence.
    + apply N.eqb_eq in Hcheck. apply N.eqb_neq in Hdeliver.
      split; [reflexivity |].
      split; [split; [discriminate | intros (r & [= <-] & _ & Hd); congruence] |].
      split; [| discriminate].
      intros r [= <-]. split; [reflexivity |]. split; intros; congruence.
    + apply N.eqb_neq in Hcheck.
      split; [reflexivity |].
      split; [split; [discriminate | intros (r & [= <-] & Hc & _); congruence] |].
      split; [| discriminate].
      intros r [= <-]. split; [reflexivity |]. split; intros; congruence.
Qed.

(** X10.  A point query sends one request, for the path [/<store>/key]
    and the key, when the transport has a node, and none otherwise;
    whenever it returns an error it returns no bytes; and a failure of the
    RPC call itself is returned as it is. *)
Theorem query_requests_and_errors (t : Transport) (key : list byte)
    (storeName : string) (w : Wire) :
  snd (Query t key storeName w)
  = match client t with
    | Some _ => w ++ [RpcABCIQuery ("/" +:+ storeName +:+ "/key") key]
    | None => w
    end
  /\ (forall e, snd (fst (Query t key storeName w)) = Some e ->
                fst (fst (Query t key storeName w)) = [])
  /\ (forall node partial e,
        client t = Some node ->
        ABCIQuery_reply node w ("/" +:+ storeName +:+ "/key") key
        = Failed partial e ->
        fst (Query t key storeName w) = ([], Some e)).
Proof.
  destruct t as [chain url [node |]]; cbn [client]; [| now repeat split].
  rewrite Query_connected. cbn [fst snd]. split; [reflexivity |]. split.
  - intros e.
    destruct (ABCIQuery_reply node w _ key) as [partial err | result];
      [reflexivity |].
    now destruct (rq_Code (Response result) =? 0).
  - intros node' partial e [= <-] ->. reflexivity.
Qed.

(** X11.  [SignBuildBroadcast] panics exactly when one of the two
    encoders fails, with the error of the first that does, and then sends
    nothing.  Otherwise it is [BroadcastTx] on the envelope made of the
    message, the public key of the signer, the sequence number and the
    signature of the bytes encoded for the chain id of the transport and
    that same sequence number. *)
Theorem sign_build_broadcast_envelope `{Codec} (t : Transport) (m : Msg)
    (privKey : PrivKey) (seq : Z) (w : Wire) :
  let signed := EncodeSignMsg m (chainId t) seq in
  let envelope := EncodeTx m (PubKeyOf privKey) (Sign privKey (fst signed)) seq in
  (forall e,
      fst (SignBuildBroadcast t m privKey seq w) = Panics e
      <-> snd signed = Some e \/ (snd signed = None /\ snd envelope = Some e))
  /\ (forall e, fst (SignBuildBroadcast t m privKey seq w) = Panics e ->
                snd (SignBuildBroadcast t m privKey seq w) = w)
  /\ (forall r, fst (SignBuildBroadcast t m privKey seq w) = Returns r ->
                (r, snd (SignBuildBroadcast t m privKey seq w))
                = BroadcastTx t (fst envelope) w).
Proof.
  intros signed envelope. unfold SignBuildBroadcast, envelope, signed.
  destruct (EncodeSignMsg m (chainId t) seq) as [signMsgBytes [e1 |]];
    cbn [fst snd].
  - split; [| split; [reflexivity | discriminate]].
    intros e. split; [intros [= <-]; now left |].
    now intros [[= <-] | [[=] _]].
  - destruct (EncodeTx m (PubKeyOf privKey) (Sign privKey signMsgBytes) seq)
      as [txBytes [e2 |]]; cbn [fst snd].
    + split; [| split; [reflexivity | discriminate]].
      intros e. split; [intros [= <-]; now right |].
      now intros [[=] | [_ [= <-]]].
    + unfold bind, ret.
      destruct (BroadcastTx t txBytes w) as [r w'] eqn:Hsent. cbn [fst snd].
      split; [| split; [discriminate | now intros r' [= <-]]].
      intros e. split; [discriminate | now intros [[=] | [_ [=]]]].
Qed.

End CoreMore.

(** ** What the aggregates gather *)

Section Gathering.
Import query gather.
Context `{Transport} `{Keys}.

Lemma decode_loop_gathers {A} `{!Unmarshal A} (resKVs : list KV)
    (m : gmap string A) :
  Forall (decodes (A := A)) resKVs ->
  decode_loop resKVs m
  = Ok (foldl (fun acc KV => <[fst (entry KV) := snd (entry KV)]> acc) m resKVs).
Proof.
  intros Hall. revert m.
  induction Hall as [| kv rest Hkv _ IH]; intros m; [reflexivity |].
  cbn [decode_loop foldl]. unfold decodes in Hkv.
  destruct (UnmarshalJSON (Value kv)) as [record [e |]] eqn:Hdec;
    [discriminate |].
  rewrite IH.
  replace (entry kv) with (getSubstringAfterKeySeparator (Key kv), record)
    by (unfold entry; now rewrite Hdec).
  reflexivity.
Qed.

Lemma decode_loop_decoded {A} `{!Unmarshal A} (resKVs : list KV)
    (m m' : gmap string A) :
  decode_loop resKVs m = Ok m' -> Forall (decodes (A := A)) resKVs.
Proof.
  revert m. induction resKVs as [| kv rest IH]; intros m; [constructor |].
  cbn [decode_loop]. unfold decodes at 1.
  destruct (UnmarshalJSON (Value kv)) as [record [e |]] eqn:Hdec; [discriminate |].
  intros Hrest. constructor; [unfold decodes; now rewrite Hdec | eauto].
Qed.

Lemma gathered_size {A} (entries : list (string * A)) (m : gmap string A) :
  (size (foldl (fun acc kv => <[fst kv := snd kv]> acc) m entries)
   <= size m + length entries)%nat.
Proof.
  revert m. induction entries as [| kv rest IH]; intros m; cbn [foldl length];
    [lia |].
  etransitivity; [apply IH |].
  destruct (m !! fst kv) as [x |] eqn:Hm.
  - rewrite map_size_insert_Some by eauto. lia.
  - rewrite map_size_insert_None by exact Hm. lia.
Qed.

Lemma gathered_last_wins {A} (post : list (string * A)) (m : gmap string A)
    (k : string) (x : A) :
  Forall (fun kv => fst kv <> k) post -> m !! k = Some x ->
  foldl (fun acc kv => <[fst kv := snd kv]> acc) m post !! k = Some x.
Proof.
  intros Hpost. revert m.
  induction Hpost as [| kv rest Hkv _ IH]; intros m Hm; [exact Hm |].
  cbn [foldl]. apply IH. now rewrite lookup_insert_ne.
Qed.

Lemma foldl_entries {A} `{!Unmarshal A} (resKVs : list KV) (m : gmap string A) :
  foldl (fun acc KV => <[fst (entry KV) := snd (entry KV)]> acc) m resKVs
  = foldl (fun acc kv => <[fst kv := snd kv]> acc) m (map entry resKVs).
Proof.
  revert m. induction resKVs as [| kv rest IH]; intros m; [reflexivity |].
  cbn [foldl map]. apply IH.
Qed.

Lemma range_query_gathers {A} `{!Unmarshal A} (prefix : string -> list byte)
    (resKVs : list KV) (w : list Lookup) :
  gathers (A := A) (fun author postID => range_query (prefix (getPermlink author postID)))
    prefix resKVs w.
Proof.
  intros author postID Hscan.
  assert (fst (range_query (A := A) (prefix (getPermlink author postID)) w)
          = decode_loop resKVs ∅) as ->.
  { unfold range_query, bind, QuerySubspace, call, ret. now rewrite Hscan. }
  split.
  - split; [intros [m Hm]; now apply (decode_loop_decoded resKVs ∅ m) |].
    intros Hall. eexists. now apply decode_loop_gathers.
  - intros m Hm.
    pose proof (decode_loop_decoded resKVs ∅ m Hm) as Hall.
    rewrite (decode_loop_gathers resKVs ∅ Hall) in Hm.
    assert (m = foldl (fun acc KV => <[fst (entry KV) := snd (entry KV)]> acc)
                  ∅ resKVs) as -> by congruence.
    clear Hm. split; [reflexivity |]. split.
    + rewrite foldl_entries.
      pose proof (gathered_size (map (entry (A := A)) resKVs) ∅) as Hsize.
      rewrite map_size_empty, length_map in Hsize. exact Hsize.
    + intros pre kv post -> Hpost.
      rewrite foldl_entries, map_app, foldl_app. cbn [map foldl].
      apply gathered_last_wins; [| apply lookup_insert_eq].
      now apply Forall_map.
Qed.

(** X12.  When the scan returns [resKVs], each of [GetPostAllComments],
    [GetPostAllViews], [GetPostAllDonations] and
    [GetPostAllReportOrUpvotes] returns a map exactly when every pair
    decodes; the map is then the pairs inserted in scan order under the
    key segment after the separator, it has at most as many entries as the
    scan, and of several pairs with the same key segment the last one is
    the one found. *)
Theorem aggregates_gather_in_scan_order {A} `{!Unmarshal A} (resKVs : list KV)
    (w : list Lookup) :
  gathers (A := A) GetPostAllComments getPostCommentPrefix resKVs w
  /\ gathers (A := A) GetPostAllViews getPostViewPrefix resKVs w
  /\ gathers (A := A) GetPostAllDonations getPostDonationsPrefix resKVs w
  /\ gathers (A := A) GetPostAllReportOrUpvotes getPostReportOrUpvotePrefix
       resKVs w.
Proof.
  split; [| split; [| split]].
  - exact (range_query_gathers getPostCommentPrefix resKVs w).
  - exact (range_query_gathers getPostViewPrefix resKVs w).
  - exact (range_query_gathers getPostDonationsPrefix resKVs w).
  - exact (range_query_gathers getPostReportOrUpvotePrefix resKVs w).
Qed.

End Gathering.

Section Requests.
Import query gather.
Context `{Transport} `{Keys}.

Lemma range_query_asks_once {A} `{!Unmarshal A} (prefix : string -> list byte)
    (w : list Lookup) :
  asks_once (A := A)
    (fun author postID => range_query (prefix (getPermlink author postID)))
    prefix w.
Proof.
  intros author postID subspace reply.
  unfold range_query, bind, QuerySubspace, call, ret. fold subspace. fold reply.
  destruct reply as [resKVs [e |]]; cbn [fst snd].
  - split; [reflexivity |]. split; [now intros e' [= <-] | discriminate].
  - split; [reflexivity |]. split; [discriminate | now intros [= ->]].
Qed.

(** X13.  Each of the four decode-only aggregates makes exactly one
    request, the scan under its prefix of the post's permlink in the post
    store; a failure of the scan is returned as it is; and an empty scan
    gives an empty map and no error. *)
Theorem aggregates_ask_once {A} `{!Unmarshal A} (w : list Lookup) :
  asks_once (A := A) GetPostAllComments getPostCommentPrefix w
  /\ asks_once (A := A) GetPostAllViews getPostViewPrefix w
  /\ asks_once (A := A) GetPostAllDonations getPostDonationsPrefix w
  /\ asks_once (A := A) GetPostAllReportOrUpvotes getPostReportOrUpvotePrefix w.
Proof.
  split; [| split; [| split]].
  - exact (range_query_asks_once getPostCommentPrefix w).
  - exact (range_query_asks_once getPostViewPrefix w).
  - exact (range_query_asks_once getPostDonationsPrefix w).
  - exact (range_query_asks_once getPostReportOrUpvotePrefix w).
Qed.

Context `{!Unmarshal PostInfo} `{!Unmarshal PostMeta}.

Lemma GetPostMeta_request (author postID : string) (w : list Lookup) :
  snd (GetPostMeta author postID w)
  = w ++ [CallQuery (getPostMetaKey (getPermlink author postID)) PostKVStoreKey].
Proof.
  unfold GetPostMeta, bind, Query, call, ret.
  destruct (Query_reply w _ PostKVStoreKey) as [resp [e |]]; cbn [fst snd];
    [reflexivity |].
  now destruct (UnmarshalJSON resp) as [postMeta [e |]].
Qed.

(** The requests of the loop: the metadata lookups of the first [n]
    pairs, in order.  These pairs decode; a lookup that fails is the last
    one made and its error is the one returned; [n] is the number of pairs
    if the loop succeeds, and if it fails, then either pair [n] is the one
    that does not decode, or the lookup of pair [n - 1] is the one that
    failed. *)
Lemma posts_loop_requests (resKVs : list KV) (m : gmap string Post)
    (w : list Lookup) :
  exists n,
    (n <= length resKVs)%nat
    /\ snd (posts_loop resKVs m w) = w ++ map meta_lookup (take n resKVs)
    /\ Forall (decodes (A := PostInfo)) (take n resKVs)
    /\ (forall j KV,
          (j < n)%nat -> resKVs !! j = Some KV ->
          match lookup_result w resKVs j KV with
          | Ok _ => True
          | Err e => n = S j /\ fst (posts_loop resKVs m w) = Err e
          end)
    /\ (forall m', fst (posts_loop resKVs m w) = Ok m' -> n = length resKVs)
    /\ (forall e,
          fst (posts_loop resKVs m w) = Err e ->
          (exists KV, resKVs !! n = Some KV
                      /\ snd (UnmarshalJSON (A := PostInfo) (Value KV)) = Some e)
          \/ (exists i KV, n = S i /\ resKVs !! i = Some KV
                           /\ lookup_result w resKVs i KV = Err e)).
Proof.
  revert m w. induction resKVs as [| kv rest IH]; intros m w.
  - exists 0%nat. cbn. rewrite app_nil_r.
    split; [lia |]. split; [reflexivity |]. split; [constructor |].
    split; [intros j KV Hj; lia |]. split; [reflexivity | discriminate].
  - cbn [posts_loop].
    destruct (UnmarshalJSON (Value kv)) as [postInfo [e |]] eqn:Hdec.
    + exists 0%nat. cbn. rewrite app_nil_r.
      split; [lia |]. split; [reflexivity |]. split; [constructor |].
      split; [intros j KV Hj; lia |]. split; [discriminate |].
      intros e' [= <-]. left. exists kv. split; [reflexivity |].
      now rewrite Hdec.
    + assert (meta_lookup kv
              = CallQuery (getPostMetaKey (getPermlink (pi_Author postInfo)
                                             (pi_PostID postInfo)))
                  PostKVStoreKey) as Hlookup
        by (unfold meta_lookup; now rewrite Hdec).
      assert (decodes (A := PostInfo) kv) as Hkv
        by (unfold decodes; now rewrite Hdec).
      assert (forall w0, lookup_result w0 (kv :: rest) 0 kv
                         = fst (GetPostMeta (pi_Author postInfo)
                                  (pi_PostID postInfo) w0)) as Hfirst.
      { intros w0. unfold lookup_result. rewrite Hdec. cbn [fst take map].
        now rewrite app_nil_r. }
      assert (forall j KV,
                 lookup_result w (kv :: rest) (S j) KV
                 = lookup_result (w ++ [meta_lookup kv]) rest j KV) as Hnext.
      { intros j KV. unfold lookup_result. cbn [take map].
        now rewrite <- app_assoc. }
      unfold bind.
      pose proof (GetPostMeta_request (pi_Author postInfo) (pi_PostID postInfo) w)
        as Hreq.
      pose proof (Hfirst w) as Hzero.
      destruct (GetPostMeta (pi_Author postInfo) (pi_PostID postInfo) w)
        as [[pm | e] w1]; cbn [fst snd] in Hreq, Hzero; subst w1;
        rewrite <- Hlookup.
      * destruct (IH (<[getSubstringAfterSubstore (Key kv) :=
                          make_post postInfo pm]> m)
                    (w ++ [meta_lookup kv]))
          as (n & Hn & Htrace & Hall & Hlook & Hok & Herr).
        exists (S n). cbn [length take map].
        split; [lia |]. split; [rewrite Htrace, <- app_assoc; reflexivity |].
        split; [now constructor |]. split; [| split].
        -- intros [| j] KV Hj HKV.
           ++ injection HKV as <-. now rewrite Hzero.
           ++ rewrite Hnext. cbn in HKV.
              specialize (Hlook j KV ltac:(lia) HKV).
              destruct (lookup_result _ rest j KV) as [pm' | e];
                [trivial |].
              destruct Hlook as [-> Hres]. now split.
        -- intros m' Hm'. f_equal. now apply (Hok m').
        -- intros e He. destruct (Herr e He) as [(KV & HKV & Hbad)
                                                | (i & KV & -> & HKV & Hres)].
           ++ left. now exists KV.
           ++ right. exists (S i), KV. rewrite Hnext. now repeat split.
      * exists 1%nat. cbn [length take map]. rewrite take_0.
        split; [lia |]. split; [reflexivity |].
        split; [now repeat constructor |]. split; [| split].
        -- intros [| j] KV Hj HKV; [| lia].
           injection HKV as <-. rewrite Hzero. now split.
        -- discriminate.
        -- intros e' [= <-]. right. exists 0%nat, kv.
           rewrite Hzero. now repeat split.
Qed.

(** X14.  [GetUserAllPosts] makes the scan request and then the metadata
    lookups of an initial stretch of the scanned pairs, one per pair, in
    scan order, each for the author and post id decoded from its pair.
    Every pair of the stretch decodes.  Nothing is requested after a pair
    that fails: a lookup that fails is the last request made and its error
    is the one returned, and when the call fails either the scan failed,
    or the pair right after the stretch is the one that does not decode,
    or the last lookup of the stretch is the one that failed.  The stretch
    is the whole scan when the call succeeds. *)
Theorem user_posts_requests (username : string) (w : list Lookup) :
  let subspace := getUserPostInfoPrefix username ++ PermLinkSeparator in
  let reply := QuerySubspace_reply w subspace PostKVStoreKey in
  let w0 := w ++ [CallQuerySubspace subspace PostKVStoreKey] in
  exists n,
    (n <= length (fst reply))%nat
    /\ snd (GetUserAllPosts username w)
       = w ++ CallQuerySubspace subspace PostKVStoreKey
            :: map meta_lookup (take n (fst reply))
    /\ (forall m, fst (GetUserAllPosts username w) = Ok m ->
                  n = length (fst reply) /\ snd reply = None)
    /\ Forall (decodes (A := PostInfo)) (take n (fst reply))
    /\ (forall j KV,
          (j < n)%nat -> fst reply !! j = Some KV ->
          match lookup_result w0 (fst reply) j KV with
          | Ok _ => True
          | Err e => n = S j /\ fst (GetUserAllPosts username w) = Err e
          end)
    /\ (forall e,
          fst (GetUserAllPosts username w) = Err e ->
          (snd reply = Some e /\ n = 0%nat)
          \/ (snd reply = None
              /\ ((exists KV, fst reply !! n = Some KV
                              /\ snd (UnmarshalJSON (A := PostInfo) (Value KV))
                                 = Some e)
                  \/ (exists i KV, n = S i /\ fst reply !! i = Some KV
                                   /\ lookup_result w0 (fst reply) i KV = Err e)))).
Proof.
  intros subspace reply w0.
  unfold GetUserAllPosts, bind, QuerySubspace, call. fold subspace. fold reply.
  fold w0.
  destruct reply as [resKVs [e |]]; cbn [fst snd].
  - exists 0%nat. rewrite take_0. cbn.
    split; [lia |]. split; [reflexivity |]. split; [discriminate |].
    split; [constructor |]. split; [intros j KV Hj; lia |].
    intros e' [= <-]. now left.
  - destruct (posts_loop_requests resKVs ∅ w0)
      as (n & Hn & Htrace & Hall & Hlook & Hok & Herr).
    exists n. split; [exact Hn |]. split.
    { rewrite Htrace. unfold w0. now rewrite <- app_assoc. }
    split; [intros m Hm; split; [now apply (Hok m) | reflexivity] |].
    split; [exact Hall |]. split; [exact Hlook |].
    intros e He. right. split; [reflexivity |]. now apply Herr.
Qed.

End Requests.

Section Content.
Import query gather.
Context `{Transport} `{Keys}.
Context `{!Unmarshal PostInfo} `{!Unmarshal PostMeta}.

Lemma entry_post_built (KV : KV) (w w' : list Lookup) (post : Post) :
  entry_post KV w = (Ok post, w') ->
  snd (UnmarshalJSON (A := PostInfo) (Value KV)) = None
  /\ exists pm,
       fst (GetPostMeta (pi_Author (fst (UnmarshalJSON (Value KV))))
              (pi_PostID (fst (UnmarshalJSON (Value KV)))) w) = Ok pm
       /\ post = make_post (fst (UnmarshalJSON (Value KV))) pm.
Proof.
  unfold entry_post.
  destruct (UnmarshalJSON (Value KV)) as [postInfo [e |]]; cbn [fst snd];
    [discriminate |].
  unfold bind, ret.
  destruct (GetPostMeta _ _ w) as [[pm | e] w1]; [| discriminate].
  intros [= <- <-]. split; [reflexivity |]. now exists pm.
Qed.

Lemma posts_loop_built (all resKVs : list KV) (m m' : gmap string Post)
    (w : list Lookup) :
  (forall KV, KV ∈ resKVs -> KV ∈ all) ->
  fst (posts_loop resKVs m w) = Ok m' ->
  built_from all m ->
  built_from all m' /\ (size m' <= size m + length resKVs)%nat.
Proof.
  revert m w. induction resKVs as [| kv rest IH]; intros m w Hsub Hloop Hm.
  - cbn in Hloop. injection Hloop as <-. split; [exact Hm | lia].
  - rewrite posts_loop_step in Hloop.
    destruct (entry_post kv w) as [[post | e] w1] eqn:Hentry; [| discriminate].
    apply entry_post_built in Hentry as (Hdec & pm & Hmeta & ->).
    destruct (IH _ w1 (fun KV HKV => Hsub KV (list_elem_of_further _ _ _ HKV)) Hloop)
      as [Hbuilt Hsize].
    + intros k post. rewrite lookup_insert.
      case_decide as Hk; [| apply Hm].
      intros [= <-]. exists kv, pm, w.
      repeat split; [apply Hsub; constructor | now symmetry | exact Hdec
                    | exact Hmeta].
    + split; [exact Hbuilt |]. cbn [length].
      etransitivity; [exact Hsize |].
      rewrite map_size_insert.
      destruct (m !! getSubstringAfterSubstore (Key kv)); unfold id; lia.
Qed.

(** X15.  When [GetUserAllPosts] succeeds, the map has at most as many
    posts as the scan returned pairs, and every post in it comes from a
    scanned pair that decodes: it is filed under the key segment of that
    pair and merges the post info decoded from the pair with the metadata
    that a lookup for the decoded author and post id returned. *)
Theorem user_posts_content (username : string) (w : list Lookup)
    (m : gmap string Post) :
  fst (GetUserAllPosts username w) = Ok m ->
  let resKVs :=
    fst (QuerySubspace_reply w (getUserPostInfoPrefix username ++ PermLinkSeparator)
           PostKVStoreKey) in
  (size m <= length resKVs)%nat /\ built_from resKVs m.
Proof.
  unfold GetUserAllPosts, bind, QuerySubspace, call.
  destruct (QuerySubspace_reply w _ PostKVStoreKey) as [resKVs [e |]];
    cbn [fst snd]; [discriminate |].
  intros Hloop.
  destruct (posts_loop_built resKVs resKVs ∅ m _ (fun KV HKV => HKV) Hloop)
    as [Hbuilt Hsize].
  - intros k post Hk. now rewrite lookup_empty in Hk.
  - rewrite map_size_empty in Hsize. now split.
Qed.

End Content.

Lemma user_posts_content_witness :
  exists m,
    fst (query.GetUserAllPosts (H := samples.full_store) (H0 := fixture.keys)
           (H1 := fixture.unmarshal_info) (H2 := fixture.unmarshal_meta)
           "alice" []) = Ok m
    /\ (size m <= 2)%nat.
Proof.
  eexists. split; [vm_compute; reflexivity |].
  refine (proj1 (user_posts_content (H := samples.full_store) (H0 := fixture.keys)
                   (Unmarshal0 := fixture.unmarshal_info)
                   (Unmarshal1 := fixture.unmarshal_meta) "alice" [] _ _)).
  vm_compute. reflexivity.
Defined.

(** ** The validator getters *)

Section ValidatorGetters.
Import query validator.
Context `{Transport} `{Keys}.
Context `{!Unmarshal Validator} `{!Unmarshal ValidatorList}.

(** X16.  [GetValidator] and [GetAllValidators] make one request each,
    to the validator store.  [GetValidator] returns a validator or an
    error, never both.  [GetAllValidators] differs on a decode error: it
    returns the list as the decoder left it together with the error; its
    list is nil only when the query itself failed. *)
Theorem validator_getters_on_errors (username : string) (w : list Lookup) :
  let one := Query_reply w (getValidatorKey username) ValidatorKVStoreKey in
  let all := Query_reply w getValidatorListKey ValidatorKVStoreKey in
  snd (GetValidator username w)
  = w ++ [CallQuery (getValidatorKey username) ValidatorKVStoreKey]
  /\ snd (GetAllValidators w) = w ++ [CallQuery getValidatorListKey ValidatorKVStoreKey]
  /\ ((exists v, fst (GetValidator username w) = (Some v, None))
      \/ (exists e, fst (GetValidator username w) = (None, Some e)))
  /\ (fst (fst (GetAllValidators w)) = None <-> snd all <> None)
  /\ (forall e, snd all = Some e -> fst (GetAllValidators w) = (None, Some e))
  /\ (forall e,
        snd all = None ->
        snd (UnmarshalJSON (A := ValidatorList) (fst all)) = Some e ->
        fst (GetAllValidators w)
        = (Some (fst (UnmarshalJSON (A := ValidatorList) (fst all))), Some e)).
Proof.
  intros one all.
  unfold GetValidator, GetAllValidators, bind, Query, call, ret.
  fold one. fold all.
  destruct one as [bz1 [e1 |]], all as [bz2 [e2 |]]; cbn [fst snd];
    try destruct (UnmarshalJSON (A := Validator) bz1) as [v [ev |]];
    try destruct (UnmarshalJSON (A := ValidatorList) bz2) as [l [el |]];
    cbn [fst snd];
    (split; [reflexivity |]); (split; [reflexivity |]);
    (split; [eauto |]);
    (split; [split; [try discriminate; intros _; discriminate
                    | try (intros Hne; now destruct Hne); reflexivity] |]);
    (split; [intros e He; congruence | intros e He1 He2; congruence]).
Qed.

End ValidatorGetters.

(** ** The links of a post *)

Section Links.
Import broadcast.
Context `{Transport}.



End Links.


(** ** The point getters of post.go *)

Section PointGetters.
Import query getters.
Context `{Transport} `{Keys}.

Lemma point_getter_answers {A} `{!Unmarshal A} (key : list byte) (w : list Lookup) :
  answers (A := A)
    (bind (Query key PostKVStoreKey) (fun r =>
       match snd r with
       | Some err => ret (Err err)
       | None =>
           match UnmarshalJSON (fst r) with
           | (_, Some err) => ret (Err err)
           | (record, None) => ret (Ok record)
           end
       end)) key w.
Proof.
  unfold answers, bind, Query, call, ret.
  destruct (Query_reply w key PostKVStoreKey) as [resp [e |]]; cbn [fst snd].
  - split; [reflexivity |]. split; [now intros e' [= <-] |].
    split; [discriminate |].
    intros record. split; [discriminate | now intros [[=] _]].
  - destruct (UnmarshalJSON resp) as [record [e |]]; cbn [fst snd];
      (split; [reflexivity |]); (split; [discriminate |]).
    + split; [now intros e' _ [= <-] |].
      intros r. split; [discriminate | now intros [_ [=]]].
    + split; [discriminate |].
      intros r. split; [intros [= <-]; now split | now intros [_ [= <-]]].
Qed.

(** X18.  Each of [GetPostInfo], [GetPostMeta], [GetPostComment] and
    [GetPostView] makes exactly one request, for its key in the post
    store; an error of the transport, or else of the decoder, is returned
    unchanged; and a record is returned exactly when the transport
    reported no error and the bytes decode to it. *)
Theorem point_getters_answer {Comment View} `{!Unmarshal PostInfo}
    `{!Unmarshal PostMeta} `{!Unmarshal Comment} `{!Unmarshal View}
    (author postID other : string) (w : list Lookup) :
  answers (GetPostInfo author postID) (key_of (PostInfoOf author postID)) w
  /\ answers (GetPostMeta author postID) (key_of (PostMetaOf author postID)) w
  /\ answers (GetPostComment (Comment := Comment) author postID other)
       (key_of (PostCommentOf author postID other)) w
  /\ answers (GetPostView (View := View) author postID other)
       (key_of (PostViewOf author postID other)) w.
Proof.
  split; [| split; [| split]]; apply point_getter_answers.
Qed.

End PointGetters.
